(** * ai-form-validator: the form-validator route

    A shallow embedding of [src/app/api/form-validator/route.ts]: the
    JSON extraction helper [extractJsonFromReply], the retrying transport
    [callAi] and the request handler [POST], followed by the properties of
    the specification that concern them.

    Conventions of the embedding.
    - Texts (request bodies, response bodies, header values, messages) are
      [string]s of 8-bit characters, read as UTF-8.  Every pattern the
      route looks for is ASCII, so matching on the UTF-8 form agrees with
      matching on the code units of the JavaScript string.
    - JavaScript numbers are IEEE-754 binary64 values, taken from the
      standard library's [SpecFloat].
    - [fetch], [Math.random] and the wording of the engine's [SyntaxError]
      are supplied by an environment [Env]; the effects of the route
      (outbound calls, random draws, sleeps) are recorded in a [World]
      threaded through a small state-and-exception monad. *)

From Stdlib Require Import ZArith NArith List String Ascii Bool Lia.
From Stdlib Require Import DecimalString.
From Stdlib Require Import Floats.SpecFloat.
Import ListNotations.

Local Open Scope string_scope.

(* ------------------------------------------------------------------ *)
(** ** Characters and texts *)

(** The double-quote character, U+0022. *)
Definition dquote : ascii := ascii_of_nat 34.
Definition backslash : ascii := ascii_of_nat 92.

Definition code (c : ascii) : N := N_of_ascii c.

Definition is_digit (c : ascii) : bool :=
  ((48 <=? code c) && (code c <=? 57))%N.

Definition digit_value (c : ascii) : N := (code c - 48)%N.

(** ASCII lower-casing; characters outside [A-Z] are left alone.  This is
    the only case folding an [/i] regular expression without the [u] flag
    performs between ASCII letters and other characters. *)
Definition to_lower (c : ascii) : ascii :=
  if ((65 <=? code c) && (code c <=? 90))%N
  then ascii_of_N (code c + 32) else c.

Definition ascii_eqb_ci (a b : ascii) : bool :=
  Ascii.eqb (to_lower a) (to_lower b).

(** [strip_prefix p s] is [Some rest] when [s = p ++ rest]. *)
Fixpoint strip_prefix (p s : string) : option string :=
  match p with
  | EmptyString => Some s
  | String a p' =>
      match s with
      | String b s' => if Ascii.eqb a b then strip_prefix p' s' else None
      | EmptyString => None
      end
  end.

(** The same, ignoring the case of ASCII letters. *)
Fixpoint strip_prefix_ci (p s : string) : option string :=
  match p with
  | EmptyString => Some s
  | String a p' =>
      match s with
      | String b s' => if ascii_eqb_ci a b then strip_prefix_ci p' s' else None
      | EmptyString => None
      end
  end.

(** [String.prototype.includes]: [includes needle hay] holds when [needle]
    occurs somewhere in [hay]. *)
Fixpoint includes (needle hay : string) : bool :=
  match strip_prefix needle hay with
  | Some _ => true
  | None =>
      match hay with
      | EmptyString => false
      | String _ hay' => includes needle hay'
      end
  end.

(** The longest prefix of characters satisfying [p], and what follows. *)
Fixpoint span (p : ascii -> bool) (s : string) : string * string :=
  match s with
  | EmptyString => (EmptyString, EmptyString)
  | String c s' =>
      if p c then let (run, rest) := span p s' in (String c run, rest)
      else (EmptyString, s)
  end.

(** Value of a string of decimal digits. *)
Fixpoint digits_value_from (acc : N) (s : string) : N :=
  match s with
  | EmptyString => acc
  | String c s' => digits_value_from (10 * acc + digit_value c)%N s'
  end.

Definition digits_value : string -> N := digits_value_from 0%N.

(** Decimal rendering of a non-negative integer, as a template literal
    renders [res.status]. *)
Definition decimal (n : N) : string := NilEmpty.string_of_uint (N.to_uint n).

(* ------------------------------------------------------------------ *)
(** ** Numbers *)

Definition number : Type := spec_float.

Definition prec : Z := 53.
Definition emax : Z := 1024.

(** An integer as a number (exact below 2^53, rounded to nearest above). *)
Definition num_of_Z (z : Z) : number := binary_normalize prec emax z 0 false.

(** The [*] operator. *)
Definition num_mul (x y : number) : number := SFmul prec emax x y.

(** The number nearest to [digits * 10^e10], negated when [neg]: the value
    of a decimal literal. *)
Definition num_of_decimal (neg : bool) (digits : N) (e10 : Z) : number :=
  match digits with
  | N0 => S754_zero neg
  | Npos d =>
      match e10 with
      | Zneg k =>
          SFdiv prec emax (S754_finite neg d 0)
                (S754_finite false (Pos.pow 10 k) 0)
      | _ => binary_round prec emax neg (d * Z.to_pos (10 ^ e10))%positive 0
      end
  end.

Definition isNaN (x : number) : bool :=
  match x with S754_nan => true | _ => false end.

(** [Math.ceil]. *)
Definition Math_ceil (x : number) : number :=
  match x with
  | S754_finite s m e =>
      match e with
      | Zneg k =>
          let v := if s then Z.neg m else Z.pos m in
          let z := (- ((- v) / Z.pos (Pos.pow 2 k)))%Z in
          match z with
          | Z0 => S754_zero s
          | _ => num_of_Z z
          end
      | _ => x
      end
  | _ => x
  end.

(** Truthiness of a number: everything but [0], [-0] and [NaN]. *)
Definition num_truthy (x : number) : bool :=
  match x with
  | S754_zero _ | S754_nan => false
  | _ => true
  end.

(* ------------------------------------------------------------------ *)
(** ** JSON values *)

(** The values [JSON.parse] produces.  An object keeps its members in
    the order they were written, duplicates included; property lookup
    takes the last one, as the parser's overwriting does. *)
#[warnings="-register-all"] Inductive json : Type :=
| JNull
| JBool (b : bool)
| JNumber (x : number)
| JString (s : string)
| JArray (items : list json)
| JObject (members : list (string * json)).

(** A JavaScript value read out of a parsed document: [None] stands for
    [undefined]. *)
Definition value : Type := option json.

(** [!v] is [negb (truthy v)]. *)
Definition truthy (v : value) : bool :=
  match v with
  | None | Some JNull => false
  | Some (JBool b) => b
  | Some (JNumber x) => num_truthy x
  | Some (JString s) => negb (String.eqb s EmptyString)
  | Some (JArray _) | Some (JObject _) => true
  end.

(** [typeof v === "string"]. *)
Definition is_string (v : value) : bool :=
  match v with Some (JString _) => true | _ => false end.

(** The last member named [k]. *)
Fixpoint lookup_member (k : string) (members : list (string * json)) : value :=
  match members with
  | [] => None
  | (k', v) :: rest =>
      match lookup_member k rest with
      | Some later => Some later
      | None => if String.eqb k k' then Some v else None
      end
  end.

(** [v?.k] for a property name [k] that is neither an array index nor
    defined on a built-in prototype ([prompt], [candidates], [content],
    [parts], [text]): only an object can have it. *)
Definition prop (k : string) (v : value) : value :=
  match v with
  | Some (JObject members) => lookup_member k members
  | _ => None
  end.

(** [v?.[0]]: the first element of an array, the member ["0"] of an
    object, the first character of a non-empty string. *)
Definition index0 (v : value) : value :=
  match v with
  | Some (JArray items) => hd_error items
  | Some (JObject members) => lookup_member "0" members
  | Some (JString (String c _)) => Some (JString (String c EmptyString))
  | _ => None
  end.

(** [a ?? b]. *)
Definition nullish_or (a : value) (b : json) : json :=
  match a with
  | None | Some JNull => b
  | Some v => v
  end.

(* ------------------------------------------------------------------ *)
(** ** JSON.parse *)

(** Outcome of a parsing function: a result with the unread text, a
    syntax error, or recursion budget used up (which [JSON_parse] never
    lets happen, see [parse_value_budget]). *)
Inductive parsed (A : Type) : Type :=
| Parsed (a : A) (rest : string)
| Malformed
| Exhausted.
Arguments Parsed {A} a rest.
Arguments Malformed {A}.
Arguments Exhausted {A}.

Definition is_json_ws (c : ascii) : bool :=
  ((code c =? 32) || (code c =? 9) || (code c =? 10) || (code c =? 13))%N.

Fixpoint skip_ws (s : string) : string :=
  match s with
  | String c s' => if is_json_ws c then skip_ws s' else s
  | EmptyString => s
  end.

Definition hex_value (c : ascii) : option N :=
  let n := code c in
  if ((48 <=? n) && (n <=? 57))%N then Some (n - 48)%N
  else if ((97 <=? n) && (n <=? 102))%N then Some (n - 87)%N
  else if ((65 <=? n) && (n <=? 70))%N then Some (n - 55)%N
  else None.

Definition hex4 (a b c d : ascii) : option N :=
  match hex_value a, hex_value b, hex_value c, hex_value d with
  | Some x, Some y, Some z, Some w => Some (((x * 16 + y) * 16 + z) * 16 + w)%N
  | _, _, _, _ => None
  end.

(** UTF-8 form of a code point (surrogates included, each on its own). *)
Definition utf8 (cp : N) : string :=
  let byte (n : N) := ascii_of_N n in
  let cont (n : N) := byte (128 + n mod 64)%N in
  if (cp <? 128)%N then String (byte cp) EmptyString
  else if (cp <? 2048)%N then
    String (byte (192 + cp / 64)%N) (String (cont cp) EmptyString)
  else if (cp <? 65536)%N then
    String (byte (224 + cp / 4096)%N)
      (String (cont (cp / 64)%N) (String (cont cp) EmptyString))
  else
    String (byte (240 + cp / 262144)%N)
      (String (cont (cp / 4096)%N)
         (String (cont (cp / 64)%N) (String (cont cp) EmptyString))).

Definition is_high_surrogate (u : N) : bool := ((55296 <=? u) && (u <=? 56319))%N.
Definition is_low_surrogate (u : N) : bool := ((56320 <=? u) && (u <=? 57343))%N.

Definition prepend (p : string) (r : option (string * string)) : option (string * string) :=
  match r with
  | Some (s, rest) => Some (p ++ s, rest)
  | None => None
  end.

(** The character a two-character escape stands for. *)
Definition simple_escape (e : ascii) : option ascii :=
  if Ascii.eqb e dquote then Some dquote
  else if Ascii.eqb e backslash then Some backslash
  else if Ascii.eqb e "/" then Some "/"%char
  else if Ascii.eqb e "b" then Some (ascii_of_nat 8)
  else if Ascii.eqb e "f" then Some (ascii_of_nat 12)
  else if Ascii.eqb e "n" then Some (ascii_of_nat 10)
  else if Ascii.eqb e "r" then Some (ascii_of_nat 13)
  else if Ascii.eqb e "t" then Some (ascii_of_nat 9)
  else None.

(** The characters of a string literal after its opening quote, decoded,
    and the text after the closing quote.  A high surrogate escape
    followed by a low surrogate escape is one code point. *)
Fixpoint lex_string (s : string) : option (string * string) :=
  match s with
  | EmptyString => None
  | String c s' =>
      if Ascii.eqb c dquote then Some (EmptyString, s')
      else if Ascii.eqb c backslash then
        match s' with
        | EmptyString => None
        | String e s'' =>
            match simple_escape e with
            | Some x => prepend (String x EmptyString) (lex_string s'')
            | None =>
                if negb (Ascii.eqb e "u") then None else
                match s'' with
                | String h1 (String h2 (String h3 (String h4 r))) =>
                    match hex4 h1 h2 h3 h4 with
                    | None => None
                    | Some u =>
                        match r with
                        | String b1 (String b2 (String l1 (String l2 (String l3 (String l4 r'))))) =>
                            match hex4 l1 l2 l3 l4 with
                            | Some l =>
                                if Ascii.eqb b1 backslash && Ascii.eqb b2 "u"
                                   && is_high_surrogate u && is_low_surrogate l
                                then prepend (utf8 (65536 + (u - 55296) * 1024 + (l - 56320))%N)
                                             (lex_string r')
                                else prepend (utf8 u) (lex_string r)
                            | None => prepend (utf8 u) (lex_string r)
                            end
                        | _ => prepend (utf8 u) (lex_string r)
                        end
                    end
                | _ => None
                end
            end
        end
      else if (code c <? 32)%N then None
      else prepend (String c EmptyString) (lex_string s')
  end.

(** An optional leading [-]. *)
Definition take_minus (s : string) : bool * string :=
  match s with
  | String c r => if Ascii.eqb c "-" then (true, r) else (false, s)
  | EmptyString => (false, s)
  end.

(** An optional leading [-] or [+]. *)
Definition take_sign (s : string) : bool * string :=
  match s with
  | String c r =>
      if Ascii.eqb c "-" then (true, r)
      else if Ascii.eqb c "+" then (false, r)
      else (false, s)
  | EmptyString => (false, s)
  end.

(** The integer part of a number literal: digits, with no leading zero
    before another digit. *)
Definition lex_int (s : string) : option (string * string) :=
  match span is_digit s with
  | (EmptyString, _) => None
  | (String c EmptyString, rest) => Some (String c EmptyString, rest)
  | (String c int, rest) =>
      if Ascii.eqb c "0" then None else Some (String c int, rest)
  end.

(** The optional fraction: a dot and at least one digit. *)
Definition lex_frac (s : string) : option (string * string) :=
  match s with
  | String c r =>
      if Ascii.eqb c "." then
        match span is_digit r with
        | (EmptyString, _) => None
        | (frac, rest) => Some (frac, rest)
        end
      else Some (EmptyString, s)
  | EmptyString => Some (EmptyString, s)
  end.

(** The optional exponent: [e] or [E], a sign, at least one digit. *)
Definition lex_exp (s : string) : option (Z * string) :=
  match s with
  | String c r =>
      if Ascii.eqb (to_lower c) "e" then
        let (eneg, r1) := take_sign r in
        match span is_digit r1 with
        | (EmptyString, _) => None
        | (ds, rest) =>
            let e := Z.of_N (digits_value ds) in
            Some (if eneg then (- e)%Z else e, rest)
        end
      else Some (0%Z, s)
  | EmptyString => Some (0%Z, s)
  end.

(** A number literal: [-? int frac? exp?]. *)
Definition lex_number (s : string) : option (number * string) :=
  let (neg, s1) := take_minus s in
  match lex_int s1 with
  | None => None
  | Some (int, s2) =>
      match lex_frac s2 with
      | None => None
      | Some (frac, s3) =>
          match lex_exp s3 with
          | None => None
          | Some (e, s4) =>
              Some (num_of_decimal neg (digits_value (int ++ frac))
                      (e - Z.of_nat (String.length frac)),
                    s4)
          end
      end
  end.

(** What follows a value inside an array or an object. *)
Inductive separator : Type :=
| Comma (rest : string)
| Close (rest : string)
| NoSeparator.

Definition next_separator (close : ascii) (s : string) : separator :=
  match skip_ws s with
  | String c rest =>
      if Ascii.eqb c "," then Comma rest
      else if Ascii.eqb c close then Close rest
      else NoSeparator
  | EmptyString => NoSeparator
  end.

(** [s] starts, after white space, with the character [c]. *)
Definition starts_with (c : ascii) (s : string) : option string :=
  match skip_ws s with
  | String a rest => if Ascii.eqb a c then Some rest else None
  | EmptyString => None
  end.

(** Recursive descent.  The first argument bounds the recursion; each
    function gives up with [Exhausted] when it reaches zero. *)
Fixpoint parse_value (budget : nat) (s : string) : parsed json :=
  match budget with
  | O => Exhausted
  | S budget' =>
      match skip_ws s with
      | EmptyString => Malformed
      | String c r =>
          if Ascii.eqb c dquote then
            match lex_string r with
            | Some (str, rest) => Parsed (JString str) rest
            | None => Malformed
            end
          else if Ascii.eqb c "{" then
            match starts_with "}" r with
            | Some rest => Parsed (JObject []) rest
            | None => parse_members budget' r []
            end
          else if Ascii.eqb c "[" then
            match starts_with "]" r with
            | Some rest => Parsed (JArray []) rest
            | None => parse_elements budget' r []
            end
          else if Ascii.eqb c "t" then
            match strip_prefix "rue" r with
            | Some rest => Parsed (JBool true) rest
            | None => Malformed
            end
          else if Ascii.eqb c "f" then
            match strip_prefix "alse" r with
            | Some rest => Parsed (JBool false) rest
            | None => Malformed
            end
          else if Ascii.eqb c "n" then
            match strip_prefix "ull" r with
            | Some rest => Parsed JNull rest
            | None => Malformed
            end
          else
            match lex_number (String c r) with
            | Some (x, rest) => Parsed (JNumber x) rest
            | None => Malformed
            end
      end
  end

with parse_elements (budget : nat) (s : string) (acc : list json) : parsed json :=
  match budget with
  | O => Exhausted
  | S budget' =>
      match parse_value budget' s with
      | Parsed v rest =>
          match next_separator "]" rest with
          | Comma rest' => parse_elements budget' rest' (v :: acc)
          | Close rest' => Parsed (JArray (rev (v :: acc))) rest'
          | NoSeparator => Malformed
          end
      | Malformed => Malformed
      | Exhausted => Exhausted
      end
  end

with parse_members (budget : nat) (s : string) (acc : list (string * json)) : parsed json :=
  match budget with
  | O => Exhausted
  | S budget' =>
      match starts_with dquote s with
      | None => Malformed
      | Some r =>
          match lex_string r with
          | None => Malformed
          | Some (key, r1) =>
              match starts_with ":" r1 with
              | None => Malformed
              | Some r2 =>
                  match parse_value budget' r2 with
                  | Parsed v rest =>
                      match next_separator "}" rest with
                      | Comma rest' => parse_members budget' rest' ((key, v) :: acc)
                      | Close rest' => Parsed (JObject (rev ((key, v) :: acc))) rest'
                      | NoSeparator => Malformed
                      end
                  | Malformed => Malformed
                  | Exhausted => Exhausted
                  end
              end
          end
      end
  end.

(** [JSON.parse text]: [None] when it throws a [SyntaxError]. *)
Definition JSON_parse (text : string) : option json :=
  match parse_value (2 * String.length text + 2) text with
  | Parsed v rest =>
      match skip_ws rest with
      | EmptyString => Some v
      | _ => None
      end
  | _ => None
  end.

(* ------------------------------------------------------------------ *)
(** ** The two regular expressions and the numeric conversions *)

(** The text from the first occurrence of [c] on. *)
Fixpoint from_first (c : ascii) (s : string) : option string :=
  match s with
  | EmptyString => None
  | String a s' => if Ascii.eqb a c then Some s else from_first c s'
  end.

(** The text up to and including the last occurrence of [c]. *)
Fixpoint upto_last (c : ascii) (s : string) : option string :=
  match s with
  | EmptyString => None
  | String a s' =>
      match upto_last c s' with
      | Some t => Some (String a t)
      | None => if Ascii.eqb a c then Some (String a EmptyString) else None
      end
  end.

(** [reply.match(/\{[\s\S]*\}/)]: the whole match, [None] for [null].
    The match starts at the leftmost opening brace; the starred class
    takes any character and is greedy, so the match ends at the last
    closing brace after it. *)
Definition match_braces (reply : string) : option string :=
  match from_first "{" reply with
  | Some (String open inner) =>
      match upto_last "}" inner with
      | Some t => Some (String open t)
      | None => None
      end
  | _ => None
  end.

Definition is_secs_char (c : ascii) : bool :=
  is_digit c || Ascii.eqb c ".".

(** [/retry in ([0-9.]+)s/i] anchored at the start of [s]: the captured
    group.  No character of the class is an [s], so the group is the
    whole run of digits and dots. *)
Definition hint_here (s : string) : option string :=
  match strip_prefix_ci "retry in " s with
  | Some r =>
      match span is_secs_char r with
      | (String c run, String t _) =>
          if ascii_eqb_ci t "s" then Some (String c run) else None
      | _ => None
      end
  | None => None
  end.

(** [text.match(/retry in ([0-9.]+)s/i)]: group 1 of the leftmost match. *)
Fixpoint match_retry_in (text : string) : option string :=
  match hint_here text with
  | Some secs => Some secs
  | None =>
      match text with
      | EmptyString => None
      | String _ text' => match_retry_in text'
      end
  end.

(** Leading white space as [parseInt] and [parseFloat] skip it: the
    ASCII controls TAB to CR, the space, and the UTF-8 forms of U+00A0,
    U+1680, U+2000 to U+200A, U+2028, U+2029, U+202F, U+205F, U+3000 and
    U+FEFF. *)
Fixpoint skip_str_ws (s : string) : string :=
  match s with
  | String a s1 =>
      let x := code a in
      if (((9 <=? x) && (x <=? 13)) || (x =? 32))%N then skip_str_ws s1
      else
        match s1 with
        | String b s2 =>
            let y := code b in
            if ((x =? 194) && (y =? 160))%N then skip_str_ws s2
            else
              match s2 with
              | String c s3 =>
                  let z := code c in
                  if (((x =? 225) && (y =? 154) && (z =? 128))
                      || ((x =? 226) && (y =? 128)
                          && (((128 <=? z) && (z <=? 138)) || (z =? 168)
                              || (z =? 169) || (z =? 175)))
                      || ((x =? 226) && (y =? 129) && (z =? 159))
                      || ((x =? 227) && (y =? 128) && (z =? 128))
                      || ((x =? 239) && (y =? 187) && (z =? 191)))%N
                  then skip_str_ws s3 else s
              | EmptyString => s
              end
        | EmptyString => s
        end
  | EmptyString => s
  end.

(** [parseInt(s, 10)]. *)
Definition parseInt (s : string) : number :=
  let (neg, r) := take_sign (skip_str_ws s) in
  match span is_digit r with
  | (EmptyString, _) => S754_nan
  | (ds, _) =>
      let n := Z.of_N (digits_value ds) in
      binary_normalize prec emax (if neg then - n else n)%Z 0 neg
  end.

(** [parseFloat(s)]: the longest prefix that is a decimal literal. *)
Definition parseFloat (s : string) : number :=
  let (neg, r) := take_sign (skip_str_ws s) in
  match strip_prefix "Infinity" r with
  | Some _ => S754_infinity neg
  | None =>
      let (int, r1) := span is_digit r in
      let (frac, r2) :=
        match r1 with
        | String c r' => if Ascii.eqb c "." then span is_digit r' else (EmptyString, r1)
        | EmptyString => (EmptyString, r1)
        end in
      match int ++ frac with
      | EmptyString => S754_nan
      | ds =>
          let e :=
            match r2 with
            | String c r3 =>
                if Ascii.eqb (to_lower c) "e"%char then
                  let (eneg, r4) := take_sign r3 in
                  let v := Z.of_N (digits_value (fst (span is_digit r4))) in
                  if eneg then (- v)%Z else v
                else 0%Z
            | EmptyString => 0%Z
            end in
          num_of_decimal neg (digits_value ds) (e - Z.of_nat (String.length frac))
      end
  end.

(* ------------------------------------------------------------------ *)
(** ** Effects *)

(** A thrown value: an error object with its [name] and [message]. *)
Record JsError : Type := { err_name : string; err_message : string }.

(** [new Error(msg)]. *)
Definition Error (msg : string) : JsError :=
  {| err_name := "Error"; err_message := msg |}.

(** What the route reads of an upstream response: [res.status],
    [res.headers.get("retry-after")] ([None] for [null]) and the text
    [res.text()] resolves to. *)
Record HttpResponse : Type :=
  { res_status : N; res_retry_after : option string; res_text : string }.

(** Outcome of one [fetch] together with the reading of its body: a
    response, or a rejection.  The timer of [DEFAULT_TIMEOUT] aborting
    the call shows as a rejection named [AbortError]; a body that cannot
    be read rejects like a failed [fetch] (the timer is cleared by then,
    so that rejection is never an abort). *)
Inductive FetchResult : Type :=
| Resolved (res : HttpResponse)
| Rejected (err : JsError).

(** What the surroundings decide: the outcome of the n-th outbound call,
    the value of [Math.floor(Math.random() * 300)] at the k-th draw, and
    the message the engine gives the [SyntaxError] of an unparsable
    text. *)
Record Env : Type :=
  { fetch_result : nat -> FetchResult;
    random300 : nat -> Z;
    syntax_error_message : string -> string }.

(** [Math.random()] lies in [0, 1), so the floor of 300 times it lies in
    [0, 300). *)
Definition random_in_range (E : Env) : Prop :=
  forall k, (0 <= random300 E k < 300)%Z.

(** One outbound call: the URL posted to and the prompt wrapped in the
    request body. *)
Record OutboundCall : Type := { call_url : string; call_prompt : string }.

(** The trace of a run: the calls made, the number of random draws, the
    arguments of [sleep], all in order. *)
Record World : Type :=
  { calls : list OutboundCall; draws : nat; sleeps : list number }.

Definition start : World := {| calls := []; draws := 0; sleeps := [] |}.

Inductive completion (A : Type) : Type :=
| Normal (a : A)
| Throw (e : JsError).
Arguments Normal {A} a.
Arguments Throw {A} e.

Definition IO (A : Type) : Type := World -> completion A * World.

Definition ret {A} (a : A) : IO A := fun w => (Normal a, w).

Definition throw {A} (e : JsError) : IO A := fun w => (Throw e, w).

Definition bind {A B} (m : IO A) (k : A -> IO B) : IO B :=
  fun w =>
    match m w with
    | (Normal a, w') => k a w'
    | (Throw e, w') => (Throw e, w')
    end.

(** [try { m } catch (err) { h err }]. *)
Definition try_catch {A} (m : IO A) (h : JsError -> IO A) : IO A :=
  fun w =>
    match m w with
    | (Normal a, w') => (Normal a, w')
    | (Throw e, w') => h e w'
    end.

Declare Scope io_scope.
Delimit Scope io_scope with io.
Notation "x <- m ;; k" := (bind m (fun x => k))
  (at level 100, m at next level, right associativity) : io_scope.
Notation "m ;; k" := (bind m (fun _ => k))
  (at level 100, right associativity) : io_scope.
Local Open Scope io_scope.

(** [await fetch(url, ...)] followed by [await res.text()]. *)
Definition fetch (E : Env) (url fullPrompt : string) : IO HttpResponse :=
  fun w =>
    let w' := {| calls := calls w ++ [{| call_url := url; call_prompt := fullPrompt |}];
                 draws := draws w;
                 sleeps := sleeps w |} in
    match fetch_result E (List.length (calls w)) with
    | Resolved res => (Normal res, w')
    | Rejected err => (Throw err, w')
    end.

(** [Math.floor(Math.random() * 300)]. *)
Definition jitter (E : Env) : IO Z :=
  fun w =>
    (Normal (random300 E (draws w)),
     {| calls := calls w; draws := S (draws w); sleeps := sleeps w |}).

(** [await sleep(ms)]. *)
Definition sleep (ms : number) : IO unit :=
  fun w =>
    (Normal tt,
     {| calls := calls w; draws := draws w; sleeps := sleeps w ++ [ms] |}).

(* ------------------------------------------------------------------ *)
(** ** Transport: callAi *)

Definition DEFAULT_TIMEOUT : Z := 10000.
Definition MAX_RETRIES : nat := 3.
Definition BASE_DELAY : Z := 1000.

(** [BASE_DELAY * 2 ** attempt]. *)
Definition backoff (attempt : nat) : Z := (BASE_DELAY * 2 ^ Z.of_nat attempt)%Z.

(** [res.ok]. *)
Definition res_ok (res : HttpResponse) : bool :=
  ((200 <=? res_status res) && (res_status res <=? 299))%N.

(** The wait of a 429/503 reply, lines 50 to 61: the fallback, overwritten
    by a numeric header, overwritten by a numeric hint in the body. *)
Definition retry_wait (res : HttpResponse) (attempt : nat) (jit : Z) : number :=
  let waitMs := num_of_Z (backoff attempt + jit) in
  let waitMs :=
    match res_retry_after res with
    | Some retryAfter =>
        if negb (String.eqb retryAfter EmptyString) then
          let parsed := parseInt retryAfter in
          if negb (isNaN parsed) then num_mul parsed (num_of_Z 1000) else waitMs
        else waitMs
    | None => waitMs
    end in
  match match_retry_in (res_text res) with
  | Some secs =>
      let parsed := parseFloat secs in
      if negb (isNaN parsed) then Math_ceil (num_mul parsed (num_of_Z 1000))
      else waitMs
  | None => waitMs
  end.

(** What one pass through the loop body decides: [return text] or
    [continue]. *)
Inductive LoopStep : Type :=
| ReturnText (text : string)
| Continue.

Definition endpoint (apiKey : string) : string :=
  "https://generativelanguage.googleapis.com/v1/models/gemini-2.5-flash:generateContent?key="
  ++ apiKey.

(** The [try] block of the loop body. *)
Definition attempt_try (E : Env) (fullPrompt apiKey : string) (attempt : nat)
  : IO LoopStep :=
  res <- fetch E (endpoint apiKey) fullPrompt ;;
  let text := res_text res in
  if res_ok res then ret (ReturnText text)
  else if ((res_status res =? 429) || (res_status res =? 503))%N
          && (attempt <? MAX_RETRIES)%nat
  then
    jit <- jitter E ;;
    sleep (retry_wait res attempt jit) ;;
    ret Continue
  else
    throw (Error ("AI API error " ++ decimal (res_status res) ++ ": " ++ text)).

(** The [catch] block of the loop body. *)
Definition attempt_catch (E : Env) (attempt : nat) (err : JsError)
  : IO LoopStep :=
  if String.eqb (err_name err) "AbortError" then
    if (attempt <? MAX_RETRIES)%nat then
      sleep (num_of_Z (backoff attempt)) ;;
      ret Continue
    else throw (Error "AI request timed out")
  else if (attempt <? MAX_RETRIES)%nat then
    jit <- jitter E ;;
    sleep (num_of_Z (backoff attempt + jit)) ;;
    ret Continue
  else throw err.

Definition attempt_body (E : Env) (fullPrompt apiKey : string) (attempt : nat)
  : IO LoopStep :=
  try_catch (attempt_try E fullPrompt apiKey attempt) (attempt_catch E attempt).

(** The loop [for (attempt = ...; attempt <= MAX_RETRIES; attempt++)]
    with [remaining] passes to go, and the [throw] after it. *)
Fixpoint callAi_from (E : Env) (fullPrompt apiKey : string)
         (remaining attempt : nat) : IO string :=
  match remaining with
  | O => throw (Error "AI request failed after retries")
  | S remaining' =>
      step <- attempt_body E fullPrompt apiKey attempt ;;
      match step with
      | ReturnText text => ret text
      | Continue => callAi_from E fullPrompt apiKey remaining' (S attempt)
      end
  end.

Definition callAi (E : Env) (fullPrompt apiKey : string) : IO string :=
  callAi_from E fullPrompt apiKey (MAX_RETRIES + 1) 0.

(* ------------------------------------------------------------------ *)
(** ** Orchestrator: extractJsonFromReply and POST *)

(** [null] is [JNull], whether returned as such or parsed. *)
Definition extractJsonFromReply (reply : string) : json :=
  match match_braces reply with
  | None => JNull
  | Some m =>
      match JSON_parse m with
      | Some v => v
      | None => JNull
      end
  end.

(** [process.env]: a variable that is not set is [None]. *)
Record Config : Type :=
  { USE_MOCK_AI : option string;
    GEMINI_API_KEY : option string;
    GOOGLE_GEMINI_API_KEY : option string }.

(** The inbound request: the text of its body. *)
Record Request : Type := { req_text : string }.

(** [NextResponse.json(data, { status })]; the status defaults to 200. *)
Record HttpReply : Type := { reply_status : N; reply_json : json }.

Definition json_reply (status : N) (data : json) : HttpReply :=
  {| reply_status := status; reply_json := data |}.

(** [await req.json()]. *)
Definition req_json (E : Env) (req : Request) : IO json :=
  match JSON_parse (req_text req) with
  | Some v => ret v
  | None =>
      throw {| err_name := "SyntaxError";
               err_message := syntax_error_message E (req_text req) |}
  end.

Definition env_is (v : option string) (s : string) : bool :=
  match v with
  | Some x => String.eqb x s
  | None => false
  end.

Definition mock_result : json :=
  JObject
    [ ("validationRules", JArray [JString "email: required, must be a valid email"]);
      ("accessibility", JArray [JString "Ensure all form fields have associated labels"]);
      ("uxSuggestions", JArray [JString "Show inline validation messages as user types"]);
      ("edgeCases", JArray [JString "Empty optional fields with default values"]) ].

Definition systemPrompt : string :=
"
You are a senior frontend engineer specializing in forms, UX, and accessibility.

Analyze the provided form definition and return STRICT JSON with:
- validationRules: array of strings
- accessibility: array of strings
- uxSuggestions: array of strings
- edgeCases: array of strings

Do NOT include explanations or markdown.
Return ONLY valid JSON.
".

Definition newline : string := String (ascii_of_nat 10) EmptyString.

Definition make_fullPrompt (prompt : string) : string :=
  systemPrompt ++ newline ++ "Form:" ++ newline ++ prompt.

(** Lines 136 to 142: the reply text inside the endpoint's envelope, or
    the raw text when it is not such an envelope. *)
Definition reply_of (text : string) : json :=
  match JSON_parse text with
  | Some apiJson =>
      nullish_or
        (prop "text" (index0 (prop "parts" (prop "content"
           (index0 (prop "candidates" (Some apiJson)))))))
        (JString text)
  | None => JString text
  end.

(** The [catch] block of the handler. *)
Definition on_error (error : JsError) : HttpReply :=
  if includes "timed out" (err_message error) then
    json_reply 504 (JObject [("error", JString "AI request timed out")])
  else if includes "AI API error" (err_message error) then
    json_reply 502 (JObject [("error", JString "AI API error");
                             ("details", JString (err_message error))])
  else json_reply 500 (JObject [("error", JString "Server error")]).

(** [extractJsonFromReply(parsedReply)] as the handler calls it, on a
    value of any type: on anything but a string, [reply.match] is not a
    function and the call throws. *)
Definition call_extract (parsedReply : json) : IO json :=
  match parsedReply with
  | JString reply => ret (extractJsonFromReply reply)
  | _ =>
      throw {| err_name := "TypeError";
               err_message := "reply.match is not a function" |}
  end.

(** Lines 135 to 150: from the text the transport returned to the reply. *)
Definition interpret (text : string) : IO HttpReply :=
  let parsedReply := reply_of text in
  extracted <- call_extract parsedReply ;;
  if negb (truthy (Some extracted)) then
    ret (json_reply 500
           (JObject [("error", JString "Invalid AI response format");
                     ("raw", parsedReply)]))
  else ret (json_reply 200 extracted).

(** The text a template literal splices in for a string value; the
    handler only reaches it with a string. *)
Definition template_text (v : value) : string :=
  match v with
  | Some (JString s) => s
  | _ => EmptyString
  end.

Definition useMock (cfg : Config) : bool :=
  env_is (USE_MOCK_AI cfg) "1" || env_is (USE_MOCK_AI cfg) "true".

(** [process.env.GEMINI_API_KEY ?? process.env.GOOGLE_GEMINI_API_KEY]. *)
Definition apiKey (cfg : Config) : option string :=
  match GEMINI_API_KEY cfg with
  | Some k => Some k
  | None => GOOGLE_GEMINI_API_KEY cfg
  end.

Definition bad_request : HttpReply :=
  json_reply 400
    (JObject [("error", JString "Missing or invalid 'prompt' in request body")]).

(** The [try] block of the handler.  Console output is left out. *)
Definition handle (cfg : Config) (E : Env) (req : Request) : IO HttpReply :=
  body <- req_json E req ;;
  let prompt := prop "prompt" (Some body) in
  if negb (truthy prompt) || negb (is_string prompt) then ret bad_request
  else if useMock cfg then ret (json_reply 200 mock_result)
  else
    match apiKey cfg with
    | None | Some EmptyString =>
        ret (json_reply 500 (JObject [("error", JString "Server misconfiguration")]))
    | Some key =>
        text <- callAi E (make_fullPrompt (template_text prompt)) key ;;
        interpret text
    end.

Definition POST (cfg : Config) (E : Env) (req : Request) : IO HttpReply :=
  try_catch (handle cfg E req) (fun error => ret (on_error error)).

(* ------------------------------------------------------------------ *)
(** ** Notions the specification speaks in *)

(** [c] occurs in [s]. *)
Fixpoint has_char (c : ascii) (s : string) : bool :=
  match s with
  | EmptyString => false
  | String a s' => Ascii.eqb a c || has_char c s'
  end.

Definition lbrace : string := "{".
Definition rbrace : string := "}".

(** A call that produced a 2xx response. *)
Definition outcome_ok (r : FetchResult) : bool :=
  match r with
  | Resolved res => res_ok res
  | Rejected _ => false
  end.

(** A call the per-attempt timer aborted. *)
Definition timed_out (r : FetchResult) : Prop :=
  exists err, r = Rejected err /\ err_name err = "AbortError".

(** The seconds of a [retry in <seconds>s] hint in a response body, when
    there is one and it reads as a number. *)
Definition body_hint (text : string) : option number :=
  match match_retry_in text with
  | Some secs => if isNaN (parseFloat secs) then None else Some (parseFloat secs)
  | None => None
  end.

(** The seconds of a [Retry-After] header, when it is present and
    numeric. *)
Definition header_seconds (retryAfter : option string) : option number :=
  match retryAfter with
  | Some h =>
      if String.eqb h EmptyString then None
      else if isNaN (parseInt h) then None else Some (parseInt h)
  | None => None
  end.

(** A request that passes the prompt check with prompt [p], under a
    configuration that is not in mock mode and holds the key [key]. *)
Definition reaches_transport (cfg : Config) (req : Request) (p key : string) : Prop :=
  (exists body, JSON_parse (req_text req) = Some body
                /\ prop "prompt" (Some body) = Some (JString p))
  /\ p <> EmptyString
  /\ useMock cfg = false
  /\ apiKey cfg = Some key
  /\ key <> EmptyString.

(* ------------------------------------------------------------------ *)
(** ** Scenarios *)

Definition quote : string := String dquote EmptyString.

(** The body [{"prompt":"<p>"}] for a prompt free of quotes and
    backslashes. *)
Definition prompt_request (p : string) : Request :=
  {| req_text := "{" ++ quote ++ "prompt" ++ quote ++ ":" ++ quote ++ p ++ quote ++ "}" |}.

Definition live_config : Config :=
  {| USE_MOCK_AI := None; GEMINI_API_KEY := Some "secret"; GOOGLE_GEMINI_API_KEY := None |}.

Definition mock_config : Config :=
  {| USE_MOCK_AI := Some "true"; GEMINI_API_KEY := None; GOOGLE_GEMINI_API_KEY := None |}.

(** An upstream that answers every call the same way. *)
Definition constant_env (r : FetchResult) : Env :=
  {| fetch_result := fun _ => r;
     random300 := fun _ => 0%Z;
     syntax_error_message := fun _ => "Unexpected end of JSON input" |}.

(** An upstream that answers the calls with the listed outcomes in turn,
    and with [r] once the list is spent. *)
Definition scripted_env (script : list FetchResult) (r : FetchResult) : Env :=
  {| fetch_result := fun n => nth n script r;
     random300 := fun _ => 150%Z;
     syntax_error_message := fun _ => "Unexpected end of JSON input" |}.

Definition response (status : N) (retryAfter : option string) (text : string) : FetchResult :=
  Resolved {| res_status := status; res_retry_after := retryAfter; res_text := text |}.

Definition abort_error : JsError :=
  {| err_name := "AbortError"; err_message := "This operation was aborted" |}.

(** Every call is aborted by the timer. *)
Definition abort_env : Env := constant_env (Rejected abort_error).

(** Every call is answered 403. *)
Definition forbidden_env : Env := constant_env (response 403 None "Forbidden").

(** Every call is answered 503. *)
Definition busy_env : Env := constant_env (response 503 None "busy").

(** Two 503 and then a 200. *)
Definition flaky_env : Env :=
  scripted_env [response 503 None "busy"; response 503 None "busy"]
               (response 200 None "fine").

(** A 200 whose text holds no JSON. *)
Definition chatty_env : Env := constant_env (response 200 None "no json at all").

(** A 429 with both a header and a hint. *)
Definition quota_env : Env :=
  constant_env (response 429 (Some "2") "Quota exceeded, retry in 5.5s.").

(** The wording of V8 since version 10.5 (Node.js 20 and later) for a
    short text whose first character cannot start a JSON value: it quotes
    the character and the whole text. *)
Definition v8_unexpected_token (text : string) : string :=
  match text with
  | String c _ =>
      "Unexpected token '" ++ String c EmptyString ++ "', " ++ quote ++ text ++ quote
      ++ " is not valid JSON"
  | EmptyString => "Unexpected end of JSON input"
  end.

Definition v8_env : Env :=
  {| fetch_result := fun _ => Rejected abort_error;
     random300 := fun _ => 0%Z;
     syntax_error_message := v8_unexpected_token |}.

(** The text of the extraction example of the specification:
    [preamble {"validationRules":["a"]} trailing]. *)
Definition example_reply : string :=
  "preamble {" ++ quote ++ "validationRules" ++ quote ++ ":[" ++ quote ++ "a" ++ quote
  ++ "]} trailing".

(** The error a failed pass through the loop throws when no retry is
    left (lines 67, 75 and 81). *)
Definition attempt_error (r : FetchResult) : JsError :=
  match r with
  | Resolved res =>
      Error ("AI API error " ++ decimal (res_status res) ++ ": " ++ res_text res)
  | Rejected err =>
      if String.eqb (err_name err) "AbortError" then Error "AI request timed out"
      else err
  end.

(** The call the transport makes, every time. *)
Definition the_call (fullPrompt key : string) : OutboundCall :=
  {| call_url := endpoint key; call_prompt := fullPrompt |}.

(** [m] is the part of [reply] from its first opening brace to its last
    closing brace, both included. *)
Definition brace_delimited (reply m : string) : Prop :=
  exists pre mid post,
    reply = pre ++ lbrace ++ mid ++ rbrace ++ post
    /\ m = lbrace ++ mid ++ rbrace
    /\ has_char "{" pre = false
    /\ has_char "}" post = false.

(** A response that sets its own wait: a 429 or a 503. *)
Definition server_paced (r : FetchResult) : bool :=
  match r with
  | Resolved res => ((res_status res =? 429) || (res_status res =? 503))%N
  | Rejected _ => false
  end.


(** ** JSON.stringify of a string *)

Definition hex_digit (n : N) : ascii :=
  if (n <? 10)%N then ascii_of_N (48 + n) else ascii_of_N (87 + n).

(** [\uXXXX] with lower-case digits. *)
Definition unicode_escape (u : N) : string :=
  String backslash
    (String "u"
       (String (hex_digit (u / 4096))
          (String (hex_digit ((u / 256) mod 16))
             (String (hex_digit ((u / 16) mod 16))
                (String (hex_digit (u mod 16)) EmptyString))))).

(** How [JSON.stringify] writes one character that is not part of a
    surrogate. *)
Definition escape_char (c : ascii) : string :=
  if Ascii.eqb c dquote then String backslash (String dquote EmptyString)
  else if Ascii.eqb c backslash then String backslash (String backslash EmptyString)
  else if (code c =? 8)%N then "\b"
  else if (code c =? 9)%N then "\t"
  else if (code c =? 10)%N then "\n"
  else if (code c =? 12)%N then "\f"
  else if (code c =? 13)%N then "\r"
  else if (code c <? 32)%N then unicode_escape (code c)
  else String c EmptyString.

(** The three bytes that stand for a surrogate code unit. *)
Definition is_surrogate_bytes (a b c : ascii) : bool :=
  ((code a =? 237) && (160 <=? code b) && (code b <=? 191)
   && (128 <=? code c) && (code c <=? 191))%N.

Definition surrogate_value (b c : ascii) : N :=
  (53248 + (code b mod 64) * 64 + code c mod 64)%N.

Fixpoint quote_chars (s : string) : string :=
  match s with
  | EmptyString => EmptyString
  | String a s1 =>
      match s1 with
      | String b (String c s3) =>
          if is_surrogate_bytes a b c
          then unicode_escape (surrogate_value b c) ++ quote_chars s3
          else escape_char a ++ quote_chars s1
      | _ => escape_char a ++ quote_chars s1
      end
  end.

(** [JSON.stringify(s)] for a string [s]. *)
Definition QuoteJSONString (s : string) : string :=
  String dquote (quote_chars s ++ String dquote EmptyString).

(** No surrogate code unit stands in the text. *)
Fixpoint no_surrogates (s : string) : bool :=
  match s with
  | EmptyString => true
  | String a s1 =>
      match s1 with
      | String b (String c _) => negb (is_surrogate_bytes a b c)
      | _ => true
      end && no_surrogates s1
  end.


(** [JSON.stringify({ prompt: formInput })]. *)
Definition submit_body (formInput : string) : string :=
  "{" ++ QuoteJSONString "prompt" ++ ":" ++ QuoteJSONString formInput ++ "}".

(** The endpoint's envelope around a reply text, as [JSON.stringify] would
    write it. *)
Definition envelope (replyText : string) : string :=
  "{" ++ QuoteJSONString "candidates" ++ ":[{" ++ QuoteJSONString "content" ++ ":{"
  ++ QuoteJSONString "parts" ++ ":[{" ++ QuoteJSONString "text" ++ ":"
  ++ QuoteJSONString replyText ++ "}]}}]}".


(* ------------------------------------------------------------------ *)
(** ** The page: FormValidatorPage *)

(** The component's state variables and the handlers that update them.
    A handler is modelled by the state it leaves once all its updates are
    applied; the markup is left out. *)
Module Page.

(** What the page gets back from [fetch] and [res.json()]: nothing it can
    read (the call is rejected, or the body is not JSON), or the parsed
    body. *)
Inductive ServerOutcome : Type :=
| NoData
| Data (data : json).

(** What the browser decides: the message of its [SyntaxError], how
    [JSON.stringify] writes a value that is not a string, and what the
    server answers to a request body. *)
Record Browser : Type :=
  { syntax_message : string -> string;
    stringify : json -> string;
    server : string -> ServerOutcome }.

Record State : Type :=
  { formInput : string;
    result : value;
    loading : bool;
    error : string;
    jsonError : string;
    isValidJson : bool;
    openSections : list (string * bool);
    copyStatus : list (string * bool);
    formatLang : string }.

(** [!text.trim()]: the text is white space throughout. *)
Definition is_blank (text : string) : bool :=
  String.eqb (skip_str_ws text) EmptyString.

(** The effect that runs when [formInput] changes: the values it gives
    [isValidJson] and [jsonError]. *)
Definition validation (B : Browser) (input : string) : bool * string :=
  if is_blank input then (false, "Empty input")
  else
    match JSON_parse input with
    | Some _ => (true, EmptyString)
    | None => (false, syntax_message B input)
    end.

(** [setFormInput(text)] and the effect it triggers. *)
Definition setFormInput (B : Browser) (text : string) (st : State) : State :=
  {| formInput := text;
     result := result st;
     loading := loading st;
     error := error st;
     jsonError := snd (validation B text);
     isValidJson := fst (validation B text);
     openSections := openSections st;
     copyStatus := copyStatus st;
     formatLang := formatLang st |}.

(** [!!v?.length]. *)
Definition has_length (v : value) : bool :=
  match v with
  | Some (JArray items) => negb (Nat.eqb (List.length items) 0)
  | Some (JString s) => negb (String.eqb s EmptyString)
  | Some (JObject members) => truthy (lookup_member "length" members)
  | _ => false
  end.

(** The sections opened when a result arrives. *)
Definition sections (data : json) : list (string * bool) :=
  [ ("Validation Rules", has_length (prop "validationRules" (Some data)));
    ("Accessibility", has_length (prop "accessibility" (Some data)));
    ("UX Suggestions", has_length (prop "uxSuggestions" (Some data)));
    ("Edge Cases", has_length (prop "edgeCases" (Some data))) ].

(** The request [handleSubmit] sends, if it sends one. *)
Definition submitted (st : State) : option string :=
  if isValidJson st then Some (submit_body (formInput st)) else None.

(** The state when the request has failed: the [catch] and [finally]
    blocks. *)
Definition failed (st : State) : State :=
  {| formInput := formInput st;
     result := None;
     loading := false;
     error := "Server error";
     jsonError := jsonError st;
     isValidJson := isValidJson st;
     openSections := openSections st;
     copyStatus := copyStatus st;
     formatLang := formatLang st |}.

(** The text shown for [data.error]. *)
Definition error_text (B : Browser) (err : json) : string :=
  match err with
  | JString s => s
  | _ => stringify B err
  end.

Definition handleSubmit (B : Browser) (st : State) : State :=
  match submitted st with
  | None =>
      {| formInput := formInput st;
         result := result st;
         loading := loading st;
         error := error st;
         jsonError := "Fix JSON before submitting";
         isValidJson := isValidJson st;
         openSections := openSections st;
         copyStatus := copyStatus st;
         formatLang := formatLang st |}
  | Some body =>
      match server B body with
      | NoData => failed st
      | Data JNull => failed st
      | Data data =>
          match prop "error" (Some data) with
          | Some err =>
              if truthy (Some err) then
                {| formInput := formInput st;
                   result := None;
                   loading := false;
                   error := error_text B err;
                   jsonError := jsonError st;
                   isValidJson := isValidJson st;
                   openSections := openSections st;
                   copyStatus := copyStatus st;
                   formatLang := formatLang st |}
              else
                {| formInput := formInput st;
                   result := Some data;
                   loading := false;
                   error := EmptyString;
                   jsonError := jsonError st;
                   isValidJson := isValidJson st;
                   openSections := sections data;
                   copyStatus := [];
                   formatLang := formatLang st |}
          | None =>
              {| formInput := formInput st;
                 result := Some data;
                 loading := false;
                 error := EmptyString;
                 jsonError := jsonError st;
                 isValidJson := isValidJson st;
                 openSections := sections data;
                 copyStatus := [];
                 formatLang := formatLang st |}
          end
      end
  end.

(** [!!openSections[title]]. *)
Fixpoint is_open (s : list (string * bool)) (title : string) : bool :=
  match s with
  | [] => false
  | (k, b) :: rest => if String.eqb title k then b else is_open rest title
  end.

(** [{ ...s, [title]: b }]. *)
Fixpoint set_key (title : string) (b : bool) (s : list (string * bool))
  : list (string * bool) :=
  match s with
  | [] => [(title, b)]
  | (k, b') :: rest =>
      if String.eqb title k then (k, b) :: rest else (k, b') :: set_key title b rest
  end.

(** The [onToggle] of a section. *)
Definition toggle (title : string) (s : list (string * bool)) : list (string * bool) :=
  set_key title (negb (is_open s title)) s.

Definition expandAll (s : list (string * bool)) : list (string * bool) :=
  map (fun entry => (fst entry, true)) s.

Definition collapseAll (s : list (string * bool)) : list (string * bool) := [].

(** [data.length === 0]. *)
Definition length_is_zero (v : value) : bool :=
  match v with
  | Some (JArray items) => Nat.eqb (List.length items) 0
  | Some (JString s) => String.eqb s EmptyString
  | Some (JObject members) =>
      match lookup_member "length" members with
      | Some (JNumber (S754_zero _)) => true
      | _ => false
      end
  | _ => false
  end.

(** [ResultSectionCollapsible] renders something: not
    [!data || data.length === 0]. *)
Definition section_renders (data : value) : bool :=
  truthy data && negb (length_is_zero data).

End Page.

(* ------------------------------------------------------------------ *)
(** ** More scenarios *)

(** An empty [GEMINI_API_KEY] beside a usable [GOOGLE_GEMINI_API_KEY]. *)
Definition shadowed_config : Config :=
  {| USE_MOCK_AI := None;
     GEMINI_API_KEY := Some EmptyString;
     GOOGLE_GEMINI_API_KEY := Some "backup" |}.

(** The network is down: every call is rejected. *)
Definition offline_error : JsError :=
  {| err_name := "TypeError"; err_message := "fetch failed" |}.

Definition offline_env : Env := constant_env (Rejected offline_error).

(** The endpoint answers with its envelope around a reply in prose. *)
Definition enveloped_env : Env :=
  constant_env (response 200 None (envelope ("Here it is: " ++ example_reply))).

(** A 200 whose text is a bare object between words. *)
Definition prose_env : Env := constant_env (response 200 None example_reply).

(** A browser whose server answers every request the same way. *)
Definition fixed_browser (answer : Page.ServerOutcome) : Page.Browser :=
  {| Page.syntax_message := fun _ => "Unexpected end of JSON input";
     Page.stringify := fun _ => "{}";
     Page.server := fun _ => answer |}.

(** The page with [text] typed into it and nothing else done. *)
Definition typed (B : Page.Browser) (text : string) : Page.State :=
  Page.setFormInput B text
    {| Page.formInput := EmptyString;
       Page.result := None;
       Page.loading := false;
       Page.error := EmptyString;
       Page.jsonError := EmptyString;
       Page.isValidJson := true;
       Page.openSections := [];
       Page.copyStatus := [];
       Page.formatLang := "json" |}.

(* ------------------------------------------------------------------ *)
(** * Properties *)

(** ** JSON.parse never runs out of budget *)

Lemma skip_ws_length (s : string) : String.length (skip_ws s) <= String.length s.
Proof.
  induction s as [| c s IH]; simpl; [lia |].
  destruct (is_json_ws c); simpl; lia.
Qed.

Lemma span_length (p : ascii -> bool) (s run rest : string) :
  span p s = (run, rest) ->
  String.length s = String.length run + String.length rest.
Proof.
  revert run rest. induction s as [| c s IH]; simpl; intros run rest H.
  - now injection H as <- <-.
  - destruct (p c).
    + destruct (span p s) as [run' rest'] eqn:Hs. injection H as <- <-.
      simpl. now rewrite (IH run' rest' eq_refl).
    + now injection H as <- <-.
Qed.

Lemma strip_prefix_length (p s rest : string) :
  strip_prefix p s = Some rest -> String.length rest <= String.length s.
Proof.
  revert s. induction p as [| a p IH]; simpl; intros s H.
  - injection H as <-. lia.
  - destruct s as [| b s]; [discriminate |].
    destruct (Ascii.eqb a b); [| discriminate].
    apply IH in H. simpl. lia.
Qed.

Lemma prepend_some (p : string) (x : option (string * string)) d rest :
  prepend p x = Some (d, rest) -> exists d', x = Some (d', rest).
Proof.
  destruct x as [[d' rest'] |]; simpl; [| discriminate].
  intros [= _ <-]. now exists d'.
Qed.

Lemma lex_string_length :
  forall n s d rest,
    String.length s <= n ->
    lex_string s = Some (d, rest) ->
    String.length rest < String.length s.
Proof.
  induction n as [| n IH]; intros s d rest Hn H.
  - destruct s; [discriminate | simpl in Hn; lia].
  - destruct s as [| c s]; [discriminate |]. simpl in Hn. simpl in H.
    assert (Hstep : forall t p d0,
               String.length t <= n ->
               prepend p (lex_string t) = Some (d0, rest) ->
               String.length rest < String.length t).
    { intros t p d0 Ht Hp. apply prepend_some in Hp as (d' & Hp).
      now apply (IH t d'). }
    destruct (Ascii.eqb c dquote).
    { injection H as _ <-. simpl. lia. }
    destruct (Ascii.eqb c backslash).
    2:{ destruct (code c <? 32)%N; [discriminate |].
        apply Hstep in H; simpl; lia. }
    destruct s as [| e s]; [discriminate |].
    destruct (simple_escape e).
    { apply Hstep in H; simpl in *; lia. }
    destruct (negb (Ascii.eqb e "u")); [discriminate |].
    destruct s as [| h1 [| h2 [| h3 [| h4 r]]]]; try discriminate.
    destruct (hex4 h1 h2 h3 h4) as [u |]; [| discriminate].
    simpl in Hn. simpl.
    assert (Hr : forall d0, prepend (utf8 u) (lex_string r) = Some (d0, rest) ->
                            String.length rest < S (S (S (S (S (S (String.length r))))))).
    { intros d0 Hp. apply Hstep in Hp; lia. }
    destruct r as [| b1 [| b2 [| l1 [| l2 [| l3 [| l4 r']]]]]];
      try (now apply Hr in H).
    destruct (hex4 l1 l2 l3 l4) as [l |]; [| now apply Hr in H].
    destruct (Ascii.eqb b1 backslash && Ascii.eqb b2 "u"
              && is_high_surrogate u && is_low_surrogate l);
      [| now apply Hr in H].
    simpl in Hn. apply Hstep in H; simpl; lia.
Qed.

Lemma take_minus_length (s : string) :
  String.length (snd (take_minus s)) <= String.length s.
Proof.
  destruct s as [| c s]; simpl; [lia |].
  destruct (Ascii.eqb c "-"); simpl; lia.
Qed.

Lemma take_sign_length (s : string) :
  String.length (snd (take_sign s)) <= String.length s.
Proof.
  destruct s as [| c s]; simpl; [lia |].
  destruct (Ascii.eqb c "-"); [simpl; lia |].
  destruct (Ascii.eqb c "+"); simpl; lia.
Qed.

Lemma lex_int_length (s int rest : string) :
  lex_int s = Some (int, rest) -> String.length rest < String.length s.
Proof.
  unfold lex_int. destruct (span is_digit s) as [run rest'] eqn:Hspan.
  apply span_length in Hspan.
  destruct run as [| c [| c' run]]; [discriminate | |].
  - intros [= _ <-]. simpl in Hspan. lia.
  - destruct (Ascii.eqb c "0"); [discriminate |].
    intros [= _ <-]. simpl in Hspan. lia.
Qed.

Lemma lex_frac_length (s frac rest : string) :
  lex_frac s = Some (frac, rest) -> String.length rest <= String.length s.
Proof.
  unfold lex_frac. destruct s as [| c r]; [intros [= _ <-]; lia |].
  destruct (Ascii.eqb c "."); [| intros [= _ <-]; lia].
  destruct (span is_digit r) as [run rest'] eqn:Hspan.
  apply span_length in Hspan.
  destruct run; [discriminate |]. intros [= _ <-]. simpl in *. lia.
Qed.

Lemma lex_exp_length (s : string) (e : Z) (rest : string) :
  lex_exp s = Some (e, rest) -> String.length rest <= String.length s.
Proof.
  unfold lex_exp. destruct s as [| c r]; [intros [= _ <-]; lia |].
  destruct (Ascii.eqb (to_lower c) "e"); [| intros [= _ <-]; lia].
  pose proof (take_sign_length r) as Hsign.
  destruct (take_sign r) as [eneg r1]. simpl in Hsign.
  destruct (span is_digit r1) as [run rest'] eqn:Hspan.
  apply span_length in Hspan.
  destruct run; [discriminate |]. intros [= _ <-]. simpl in *. lia.
Qed.

Lemma lex_number_length (s : string) (x : number) (rest : string) :
  lex_number s = Some (x, rest) -> String.length rest < String.length s.
Proof.
  unfold lex_number. pose proof (take_minus_length s) as Hminus.
  destruct (take_minus s) as [neg s1]. simpl in Hminus.
  destruct (lex_int s1) as [[int s2] |] eqn:Hint; [| discriminate].
  destruct (lex_frac s2) as [[frac s3] |] eqn:Hfrac; [| discriminate].
  destruct (lex_exp s3) as [[e s4] |] eqn:Hexp; [| discriminate].
  intros [= _ <-].
  apply lex_int_length in Hint. apply lex_frac_length in Hfrac.
  apply lex_exp_length in Hexp. lia.
Qed.

Lemma starts_with_length (c : ascii) (s rest : string) :
  starts_with c s = Some rest -> String.length rest < String.length s.
Proof.
  unfold starts_with. pose proof (skip_ws_length s) as Hws.
  destruct (skip_ws s) as [| a t]; [discriminate |].
  destruct (Ascii.eqb a c); [| discriminate].
  intros [= <-]. simpl in Hws. lia.
Qed.

Lemma next_separator_length (c : ascii) (s : string) :
  match next_separator c s with
  | Comma rest | Close rest => String.length rest < String.length s
  | NoSeparator => True
  end.
Proof.
  unfold next_separator. pose proof (skip_ws_length s) as Hws.
  destruct (skip_ws s) as [| a t]; [exact I |]. simpl in Hws.
  destruct (Ascii.eqb a ","); [lia |].
  destruct (Ascii.eqb a c); [lia | exact I].
Qed.

(** Whatever a parsing function accepts, it has read at least one
    character of. *)
Lemma parse_consumes :
  forall budget,
    (forall s v rest,
       parse_value budget s = Parsed v rest -> String.length rest < String.length s)
    /\ (forall s acc v rest,
          parse_elements budget s acc = Parsed v rest ->
          String.length rest < String.length s)
    /\ (forall s acc v rest,
          parse_members budget s acc = Parsed v rest ->
          String.length rest < String.length s).
Proof.
  induction budget as [| budget (IHv & IHe & IHm)];
    [split; [| split]; intros * H; simpl in H; discriminate H |].
  split; [| split].
  - intros s v rest. cbn [parse_value]. pose proof (skip_ws_length s) as Hws.
    destruct (skip_ws s) as [| c r]; [discriminate |]. simpl in Hws.
    destruct (Ascii.eqb c dquote).
    { destruct (lex_string r) as [[str rest'] |] eqn:Hlex; [| discriminate].
      intros [= _ <-]. apply (lex_string_length _ _ _ _ (le_n _)) in Hlex. lia. }
    destruct (Ascii.eqb c "{").
    { destruct (starts_with "}" r) as [rest' |] eqn:Hst.
      - intros [= _ <-]. apply starts_with_length in Hst. lia.
      - intros H. apply IHm in H. lia. }
    destruct (Ascii.eqb c "[").
    { destruct (starts_with "]" r) as [rest' |] eqn:Hst.
      - intros [= _ <-]. apply starts_with_length in Hst. lia.
      - intros H. apply IHe in H. lia. }
    destruct (Ascii.eqb c "t").
    { destruct (strip_prefix "rue" r) as [rest' |] eqn:Hst; [| discriminate].
      intros [= _ <-]. apply strip_prefix_length in Hst. lia. }
    destruct (Ascii.eqb c "f").
    { destruct (strip_prefix "alse" r) as [rest' |] eqn:Hst; [| discriminate].
      intros [= _ <-]. apply strip_prefix_length in Hst. lia. }
    destruct (Ascii.eqb c "n").
    { destruct (strip_prefix "ull" r) as [rest' |] eqn:Hst; [| discriminate].
      intros [= _ <-]. apply strip_prefix_length in Hst. lia. }
    destruct (lex_number (String c r)) as [[x rest'] |] eqn:Hnum; [| discriminate].
    intros [= _ <-]. apply lex_number_length in Hnum. simpl in Hnum. lia.
  - intros s acc v rest. cbn [parse_elements].
    destruct (parse_value budget s) as [v1 r1 | |] eqn:Hv; try discriminate.
    apply IHv in Hv. pose proof (next_separator_length "]" r1) as Hsep.
    destruct (next_separator "]" r1) as [r2 | r2 |]; [| | discriminate].
    + intros H. apply IHe in H. lia.
    + intros [= _ <-]. lia.
  - intros s acc v rest. cbn [parse_members].
    destruct (starts_with dquote s) as [r |] eqn:Hq; [| discriminate].
    apply starts_with_length in Hq.
    destruct (lex_string r) as [[key r1] |] eqn:Hkey; [| discriminate].
    apply (lex_string_length _ _ _ _ (le_n _)) in Hkey.
    destruct (starts_with ":" r1) as [r2 |] eqn:Hc; [| discriminate].
    apply starts_with_length in Hc.
    destruct (parse_value budget r2) as [v1 r3 | |] eqn:Hv; try discriminate.
    apply IHv in Hv. pose proof (next_separator_length "}" r3) as Hsep.
    destruct (next_separator "}" r3) as [r4 | r4 |]; [| | discriminate].
    + intros H. apply IHm in H. lia.
    + intros [= _ <-]. lia.
Qed.

(** A budget of twice the length of the text, and a little, is never
    used up. *)
Lemma parse_budget :
  forall budget,
    (forall s, 2 * String.length s + 1 <= budget ->
               parse_value budget s <> Exhausted)
    /\ (forall s acc, 2 * String.length s + 2 <= budget ->
                      parse_elements budget s acc <> Exhausted)
    /\ (forall s acc, 2 * String.length s + 2 <= budget ->
                      parse_members budget s acc <> Exhausted).
Proof.
  induction budget as [| budget (IHv & IHe & IHm)];
    [split; [| split]; intros; lia |].
  split; [| split].
  - intros s Hb. cbn [parse_value]. pose proof (skip_ws_length s) as Hws.
    destruct (skip_ws s) as [| c r]; [discriminate |]. simpl in Hws.
    destruct (Ascii.eqb c dquote).
    { destruct (lex_string r) as [[str rest'] |]; discriminate. }
    destruct (Ascii.eqb c "{").
    { destruct (starts_with "}" r); [discriminate |]. apply IHm. lia. }
    destruct (Ascii.eqb c "[").
    { destruct (starts_with "]" r); [discriminate |]. apply IHe. lia. }
    destruct (Ascii.eqb c "t"); [destruct (strip_prefix "rue" r); discriminate |].
    destruct (Ascii.eqb c "f"); [destruct (strip_prefix "alse" r); discriminate |].
    destruct (Ascii.eqb c "n"); [destruct (strip_prefix "ull" r); discriminate |].
    destruct (lex_number (String c r)) as [[x rest'] |]; discriminate.
  - intros s acc Hb. cbn [parse_elements].
    pose proof (IHv s) as Hv. pose proof (proj1 (parse_consumes budget) s) as Hlen.
    destruct (parse_value budget s) as [v1 r1 | |]; [| discriminate | apply Hv; lia].
    specialize (Hlen v1 r1 eq_refl).
    pose proof (next_separator_length "]" r1) as Hsep.
    destruct (next_separator "]" r1) as [r2 | r2 |]; try discriminate.
    apply IHe. lia.
  - intros s acc Hb. cbn [parse_members].
    destruct (starts_with dquote s) as [r |] eqn:Hq; [| discriminate].
    apply starts_with_length in Hq.
    destruct (lex_string r) as [[key r1] |] eqn:Hkey; [| discriminate].
    apply (lex_string_length _ _ _ _ (le_n _)) in Hkey.
    destruct (starts_with ":" r1) as [r2 |] eqn:Hc; [| discriminate].
    apply starts_with_length in Hc.
    pose proof (IHv r2) as Hv. pose proof (proj1 (parse_consumes budget) r2) as Hlen.
    destruct (parse_value budget r2) as [v1 r3 | |]; [| discriminate | apply Hv; lia].
    specialize (Hlen v1 r3 eq_refl).
    pose proof (next_separator_length "}" r3) as Hsep.
    destruct (next_separator "}" r3) as [r4 | r4 |]; try discriminate.
    apply IHm. lia.
Qed.

(** [JSON_parse] gives its parser budget enough: [None] always stands
    for a syntax error. *)
Lemma parse_value_budget (text : string) :
  parse_value (2 * String.length text + 2) text <> Exhausted.
Proof. apply (parse_budget (2 * String.length text + 2)). lia. Qed.

(** ** The brace scan *)

Lemma append_assoc (a b c : string) : (a ++ b) ++ c = a ++ (b ++ c).
Proof.
  induction a as [| x a IH]; simpl; [reflexivity | now rewrite IH].
Qed.

Lemma from_first_app (c : ascii) (pre r : string) :
  has_char c pre = false ->
  from_first c (pre ++ String c r) = Some (String c r).
Proof.
  induction pre as [| a pre IH]; simpl; intros H.
  - now rewrite Ascii.eqb_refl.
  - apply orb_false_elim in H as [Ha Hpre].
    rewrite Ha. now apply IH.
Qed.

Lemma from_first_some (c : ascii) (s t : string) :
  from_first c s = Some t ->
  exists pre r, s = pre ++ String c r /\ t = String c r /\ has_char c pre = false.
Proof.
  revert t. induction s as [| a s IH]; simpl; intros t H; [discriminate |].
  destruct (Ascii.eqb a c) eqn:Hac.
  - apply Ascii.eqb_eq in Hac. subst a. injection H as <-.
    now exists EmptyString, s.
  - destruct (IH _ H) as (pre & r & -> & -> & Hpre).
    exists (String a pre), r. simpl. now rewrite Hac, Hpre.
Qed.

Lemma upto_last_none (c : ascii) (s : string) :
  upto_last c s = None <-> has_char c s = false.
Proof.
  induction s as [| a s IH]; simpl; [tauto |].
  destruct (upto_last c s) as [t |].
  - split; [discriminate |]. intros H.
    apply orb_false_elim in H as [_ H]. apply IH in H. discriminate.
  - destruct (Ascii.eqb a c); simpl; [split; discriminate |].
    split; intros _; [now apply IH | reflexivity].
Qed.

Lemma upto_last_app (c : ascii) (mid post : string) :
  has_char c post = false ->
  upto_last c (mid ++ String c post) = Some (mid ++ String c EmptyString).
Proof.
  intros Hpost. induction mid as [| a mid IH]; simpl.
  - apply upto_last_none in Hpost. now rewrite Hpost, Ascii.eqb_refl.
  - now rewrite IH.
Qed.

Lemma upto_last_some (c : ascii) (s t : string) :
  upto_last c s = Some t ->
  exists mid post,
    s = mid ++ String c post /\ t = mid ++ String c EmptyString
    /\ has_char c post = false.
Proof.
  revert t. induction s as [| a s IH]; simpl; intros t H; [discriminate |].
  destruct (upto_last c s) as [t' |] eqn:Hs.
  - injection H as <-.
    destruct (IH _ eq_refl) as (mid & post & -> & -> & Hpost).
    now exists (String a mid), post.
  - destruct (Ascii.eqb a c) eqn:Hac; [| discriminate].
    apply Ascii.eqb_eq in Hac. subst a. injection H as <-.
    exists EmptyString, s. repeat split. now apply upto_last_none.
Qed.

(** The regular expression of [extractJsonFromReply] matches exactly the
    part from the first opening brace to the last closing brace. *)
Lemma match_braces_spec (reply m : string) :
  match_braces reply = Some m <-> brace_delimited reply m.
Proof.
  unfold match_braces, brace_delimited, lbrace, rbrace. split.
  - destruct (from_first "{" reply) as [t |] eqn:Hf; [| discriminate].
    destruct (from_first_some _ _ _ Hf) as (pre & r & -> & -> & Hpre).
    destruct (upto_last "}" r) as [u |] eqn:Hu; [| discriminate].
    intros [= <-].
    destruct (upto_last_some _ _ _ Hu) as (mid & post & -> & -> & Hpost).
    exists pre, mid, post. simpl. auto.
  - intros (pre & mid & post & -> & -> & Hpre & Hpost). simpl.
    rewrite (from_first_app _ _ _ Hpre).
    now rewrite (upto_last_app _ _ _ Hpost).
Qed.

Lemma match_braces_none (reply : string) :
  (forall m, ~ brace_delimited reply m) -> match_braces reply = None.
Proof.
  intros H. destruct (match_braces reply) as [m |] eqn:Hm; [| reflexivity].
  apply match_braces_spec in Hm. now apply H in Hm.
Qed.

(** ** One pass through the loop of callAi *)

Lemma lt_max_retries (attempt : nat) :
  attempt < MAX_RETRIES -> (attempt <? MAX_RETRIES)%nat = true.
Proof. intros H. now apply Nat.ltb_lt. Qed.

(** A 2xx response ends the pass with its text; nothing is slept. *)
Lemma attempt_body_success E p key attempt w res :
  fetch_result E (List.length (calls w)) = Resolved res ->
  res_ok res = true ->
  exists w',
    attempt_body E p key attempt w = (Normal (ReturnText (res_text res)), w')
    /\ calls w' = (calls w ++ [the_call p key])%list
    /\ draws w' = draws w
    /\ sleeps w' = sleeps w.
Proof.
  intros Hf Hok.
  unfold attempt_body, try_catch, attempt_try, bind, fetch.
  rewrite Hf, Hok. unfold ret. eexists. split; [reflexivity |]. simpl. auto.
Qed.

(** Any other outcome of a pass that is not the last one ends in a sleep
    and [continue]. *)
Lemma attempt_body_retry E p key attempt w :
  attempt < MAX_RETRIES ->
  outcome_ok (fetch_result E (List.length (calls w))) = false ->
  exists w' ms,
    attempt_body E p key attempt w = (Normal Continue, w')
    /\ calls w' = (calls w ++ [the_call p key])%list
    /\ sleeps w' = (sleeps w ++ [ms])%list.
Proof.
  intros Hlt Hok. apply lt_max_retries in Hlt.
  unfold attempt_body, try_catch, attempt_try, attempt_catch, bind, fetch.
  destruct (fetch_result E (List.length (calls w))) as [res | err]; simpl in Hok.
  - rewrite Hok, Hlt, andb_true_r.
    destruct ((res_status res =? 429) || (res_status res =? 503))%N.
    + unfold jitter, sleep, ret. simpl. now do 2 eexists.
    + unfold throw, jitter, sleep, ret. simpl. now do 2 eexists.
  - rewrite Hlt.
    destruct (String.eqb (err_name err) "AbortError");
      unfold jitter, sleep, ret; simpl; now do 2 eexists.
Qed.

(** On the last pass every outcome but a 2xx response throws. *)
Lemma attempt_body_last E p key w :
  outcome_ok (fetch_result E (List.length (calls w))) = false ->
  exists w',
    attempt_body E p key MAX_RETRIES w
    = (Throw (attempt_error (fetch_result E (List.length (calls w)))), w')
    /\ calls w' = (calls w ++ [the_call p key])%list
    /\ sleeps w' = sleeps w.
Proof.
  intros Hok.
  unfold attempt_body, try_catch, attempt_try, attempt_catch, bind, fetch.
  destruct (fetch_result E (List.length (calls w))) as [res | err]; simpl in Hok.
  - rewrite Hok. rewrite Nat.ltb_irrefl, andb_false_r.
    unfold throw. simpl. now eexists.
  - rewrite Nat.ltb_irrefl. simpl.
    destruct (String.eqb (err_name err) "AbortError"); unfold throw; now eexists.
Qed.

(** ** Whole runs of callAi *)

Lemma callAi_from_step E p key remaining attempt w :
  callAi_from E p key (S remaining) attempt w
  = match attempt_body E p key attempt w with
    | (Normal (ReturnText text), w') => (Normal text, w')
    | (Normal Continue, w') => callAi_from E p key remaining (S attempt) w'
    | (Throw e, w') => (Throw e, w')
    end.
Proof.
  simpl. unfold bind.
  destruct (attempt_body E p key attempt w) as [[[text |] | e] w']; reflexivity.
Qed.

(** When the first [k] calls fail and the next one, still within the
    loop, gets a 2xx response, the run returns that response's text
    after [k + 1] calls and [k] sleeps. *)
Lemma callAi_from_returns E p key :
  forall k remaining attempt w res,
    remaining + attempt = MAX_RETRIES + 1 ->
    k < remaining ->
    (forall i, i < k ->
       outcome_ok (fetch_result E (List.length (calls w) + i)) = false) ->
    fetch_result E (List.length (calls w) + k) = Resolved res ->
    res_ok res = true ->
    exists w',
      callAi_from E p key remaining attempt w = (Normal (res_text res), w')
      /\ List.length (calls w') = List.length (calls w) + k + 1
      /\ List.length (sleeps w') = List.length (sleeps w) + k.
Proof.
  induction k as [| k IH]; intros remaining attempt w res Hsum Hk Hfail Hres Hok;
    (destruct remaining as [| remaining]; [lia |]); rewrite callAi_from_step.
  - rewrite Nat.add_0_r in Hres.
    destruct (attempt_body_success E p key attempt w res Hres Hok)
      as (w' & -> & Hc & _ & Hs).
    exists w'. rewrite Hc, Hs, length_app. simpl. auto with arith.
  - assert (Hlt : attempt < MAX_RETRIES) by lia.
    assert (H0 : outcome_ok (fetch_result E (List.length (calls w))) = false).
    { rewrite <- (Nat.add_0_r (List.length (calls w))). apply Hfail. lia. }
    destruct (attempt_body_retry E p key attempt w Hlt H0)
      as (w1 & ms & -> & Hc & Hs).
    assert (Hlen : List.length (calls w1) = S (List.length (calls w))).
    { rewrite Hc, length_app. simpl. lia. }
    destruct (IH remaining (S attempt) w1 res) as (w' & Hrun & Hc' & Hs');
      try lia; try assumption.
    + intros i Hi. rewrite Hlen. replace (S (List.length (calls w)) + i)
        with (List.length (calls w) + S i) by lia. apply Hfail. lia.
    + rewrite Hlen. replace (S (List.length (calls w)) + k)
        with (List.length (calls w) + S k) by lia. exact Hres.
    + exists w'. rewrite Hrun. split; [reflexivity |].
      rewrite Hc', Hs', Hlen, Hs, length_app. simpl. lia.
Qed.

(** When every call of the loop fails, the run throws the error of its
    last pass, after as many calls as passes. *)
Lemma callAi_from_exhausts E p key :
  forall remaining attempt w,
    remaining + attempt = MAX_RETRIES + 1 ->
    1 <= remaining ->
    (forall i, i < remaining ->
       outcome_ok (fetch_result E (List.length (calls w) + i)) = false) ->
    exists w',
      callAi_from E p key remaining attempt w
      = (Throw (attempt_error
                  (fetch_result E (List.length (calls w) + remaining - 1))), w')
      /\ List.length (calls w') = List.length (calls w) + remaining
      /\ List.length (sleeps w') = List.length (sleeps w) + remaining - 1.
Proof.
  induction remaining as [| remaining IH]; intros attempt w Hsum Hpos Hfail;
    [lia |].
  assert (H0 : outcome_ok (fetch_result E (List.length (calls w))) = false).
  { rewrite <- (Nat.add_0_r (List.length (calls w))). apply Hfail. lia. }
  rewrite callAi_from_step.
  destruct remaining as [| remaining].
  - assert (attempt = MAX_RETRIES) by lia. subst attempt.
    destruct (attempt_body_last E p key w H0) as (w' & -> & Hc & Hs).
    exists w'. replace (List.length (calls w) + 1 - 1) with (List.length (calls w)) by lia.
    split; [reflexivity |]. rewrite Hc, Hs, length_app. simpl. lia.
  - assert (Hlt : attempt < MAX_RETRIES) by lia.
    destruct (attempt_body_retry E p key attempt w Hlt H0)
      as (w1 & ms & -> & Hc & Hs).
    assert (Hlen : List.length (calls w1) = S (List.length (calls w))).
    { rewrite Hc, length_app. simpl. lia. }
    destruct (IH (S attempt) w1) as (w' & Hrun & Hc' & Hs'); try lia.
    + intros i Hi. rewrite Hlen. replace (S (List.length (calls w)) + i)
        with (List.length (calls w) + S i) by lia. apply Hfail. lia.
    + rewrite Hlen in Hrun, Hc'.
      replace (S (List.length (calls w)) + S remaining - 1)
        with (List.length (calls w) + S (S remaining) - 1) in Hrun by lia.
      exists w'. split; [exact Hrun |].
      rewrite Hc', Hs', Hs, length_app. simpl. lia.
Qed.

(** ** The handler *)

Lemma string_eqb_empty (s : string) : s <> EmptyString -> String.eqb s EmptyString = false.
Proof. intros H. now apply String.eqb_neq. Qed.

(** A body that parses but whose prompt is not a non-empty string is
    answered at the prompt check. *)
Lemma handle_bad_prompt cfg E req w body :
  JSON_parse (req_text req) = Some body ->
  truthy (prop "prompt" (Some body)) && is_string (prop "prompt" (Some body)) = false ->
  handle cfg E req w = (Normal bad_request, w).
Proof.
  intros Hbody Hbad. unfold handle, req_json, bind. rewrite Hbody. unfold ret at 1.
  apply andb_false_iff in Hbad as [-> | ->]; simpl; [reflexivity |].
  now rewrite orb_true_r.
Qed.

(** A body that passes the prompt check, read by its prompt. *)
Lemma handle_good_prompt cfg E req w body p :
  JSON_parse (req_text req) = Some body ->
  prop "prompt" (Some body) = Some (JString p) ->
  p <> EmptyString ->
  handle cfg E req w
  = if useMock cfg then (Normal (json_reply 200 mock_result), w)
    else
      match apiKey cfg with
      | None | Some EmptyString =>
          (Normal (json_reply 500
                     (JObject [("error", JString "Server misconfiguration")])), w)
      | Some key => bind (callAi E (make_fullPrompt p) key) interpret w
      end.
Proof.
  intros Hbody Hprompt Hp. unfold handle, req_json, bind at 1. rewrite Hbody.
  unfold ret at 1. rewrite Hprompt. unfold truthy, is_string, template_text.
  rewrite (string_eqb_empty _ Hp). cbn [negb orb].
  destruct (useMock cfg); [reflexivity |].
  destruct (apiKey cfg) as [[| c key] |]; reflexivity.
Qed.

(** The handler on a request that gets as far as the transport. *)
Lemma POST_live cfg E req p key w :
  reaches_transport cfg req p key ->
  POST cfg E req w
  = match callAi E (make_fullPrompt p) key w with
    | (Normal text, w') =>
        match interpret text w' with
        | (Normal reply, w'') => (Normal reply, w'')
        | (Throw e, w'') => (Normal (on_error e), w'')
        end
    | (Throw e, w') => (Normal (on_error e), w')
    end.
Proof.
  intros ((body & Hbody & Hprompt) & Hp & Hmock & Hkey & Hne).
  unfold POST, try_catch.
  rewrite (handle_good_prompt cfg E req w body p Hbody Hprompt Hp), Hmock, Hkey.
  destruct key as [| c key]; [congruence |]. unfold bind.
  destruct (callAi E (make_fullPrompt p) (String c key) w) as [[text | e] w'];
    [| reflexivity].
  destruct (interpret text w') as [[reply | e] w'']; reflexivity.
Qed.

(** C3.  Whenever the parsed request body has no [prompt], a [prompt]
    that is not a string, or the empty string as [prompt], the handler
    answers 400 with the error [Missing or invalid 'prompt' in request
    body], and the world is left as it was: no outbound call is made. *)
Theorem prompt_check_rejects cfg E req w body :
  JSON_parse (req_text req) = Some body ->
  prop "prompt" (Some body) = None
  \/ is_string (prop "prompt" (Some body)) = false
  \/ prop "prompt" (Some body) = Some (JString EmptyString) ->
  POST cfg E req w
  = (Normal (json_reply 400
               (JObject [("error",
                          JString "Missing or invalid 'prompt' in request body")])),
     w).
Proof.
  intros Hbody Hbad. unfold POST, try_catch.
  rewrite (handle_bad_prompt cfg E req w body Hbody); [reflexivity |].
  destruct Hbad as [-> | [-> | ->]]; try reflexivity. apply andb_false_r.
Qed.

Lemma prompt_check_rejects_witness :
  JSON_parse (req_text {| req_text := "{}" |}) = Some (JObject [])
  /\ POST live_config abort_env {| req_text := "{}" |} start
     = (Normal (json_reply 400
                  (JObject [("error",
                             JString "Missing or invalid 'prompt' in request body")])),
        start).
Proof.
  split; [reflexivity |].
  apply (prompt_check_rejects live_config _ _ start (JObject []));
    [reflexivity | left; reflexivity].
Defined.

(** C4.  With the mock flag set ([USE_MOCK_AI] is [1] or [true]) the
    handler makes no outbound call whatever the request, and every
    request whose prompt is a non-empty string gets the same canned
    result with status 200: four one-element arrays of strings. *)
Theorem mock_mode_is_canned cfg E req w :
  USE_MOCK_AI cfg = Some "1" \/ USE_MOCK_AI cfg = Some "true" ->
  (exists reply, POST cfg E req w = (Normal reply, w))
  /\ (forall body p,
        JSON_parse (req_text req) = Some body ->
        prop "prompt" (Some body) = Some (JString p) ->
        p <> EmptyString ->
        POST cfg E req w
        = (Normal
             (json_reply 200
                (JObject
                   [("validationRules",
                     JArray [JString "email: required, must be a valid email"]);
                    ("accessibility",
                     JArray [JString "Ensure all form fields have associated labels"]);
                    ("uxSuggestions",
                     JArray [JString "Show inline validation messages as user types"]);
                    ("edgeCases",
                     JArray [JString "Empty optional fields with default values"])])),
           w)).
Proof.
  intros Hflag.
  assert (Hmock : useMock cfg = true).
  { unfold useMock. destruct Hflag as [-> | ->]; reflexivity. }
  assert (Hgood : forall body p,
             JSON_parse (req_text req) = Some body ->
             prop "prompt" (Some body) = Some (JString p) ->
             p <> EmptyString ->
             POST cfg E req w = (Normal (json_reply 200 mock_result), w)).
  { intros body p Hbody Hprompt Hp. unfold POST, try_catch.
    now rewrite (handle_good_prompt cfg E req w body p Hbody Hprompt Hp), Hmock. }
  split; [| exact Hgood].
  destruct (JSON_parse (req_text req)) as [body |] eqn:Hbody.
  - destruct (truthy (prop "prompt" (Some body))
              && is_string (prop "prompt" (Some body))) eqn:Hcheck.
    + apply andb_true_iff in Hcheck as [Ht Hs].
      destruct (prop "prompt" (Some body)) as [[| | | p | |] |] eqn:Hprompt;
        try discriminate.
      exists (json_reply 200 mock_result). apply (Hgood body p eq_refl Hprompt).
      intros ->. discriminate.
    + exists bad_request. unfold POST, try_catch.
      now rewrite (handle_bad_prompt cfg E req w body Hbody Hcheck).
  - eexists. unfold POST, try_catch, handle, req_json, bind. rewrite Hbody.
    reflexivity.
Qed.

Lemma mock_mode_is_canned_witness :
  USE_MOCK_AI mock_config = Some "true"
  /\ POST mock_config abort_env (prompt_request "form") start
     = (Normal (json_reply 200 mock_result), start).
Proof.
  split; [reflexivity |].
  apply (proj2 (mock_mode_is_canned mock_config abort_env
                  (prompt_request "form") start (or_intror eq_refl))
               (JObject [("prompt", JString "form")]) "form");
    [reflexivity | reflexivity | discriminate].
Defined.

(** C6.  [extractJsonFromReply] parses the part of the reply that runs
    from its first opening brace to its last closing brace, both
    included, and yields [null] when that part does not parse; on
    [preamble {"validationRules":["a"]} trailing] it yields the object
    [{"validationRules":["a"]}]. *)
Theorem extraction_is_greedy :
  (forall pre mid post,
     has_char "{" pre = false ->
     has_char "}" post = false ->
     extractJsonFromReply (pre ++ lbrace ++ mid ++ rbrace ++ post)
     = match JSON_parse (lbrace ++ mid ++ rbrace) with
       | Some v => v
       | None => JNull
       end)
  /\ extractJsonFromReply example_reply
     = JObject [("validationRules", JArray [JString "a"])].
Proof.
  split; [| reflexivity].
  intros pre mid post Hpre Hpost. unfold extractJsonFromReply.
  assert (Hm : match_braces (pre ++ lbrace ++ mid ++ rbrace ++ post)
               = Some (lbrace ++ mid ++ rbrace)).
  { apply match_braces_spec. now exists pre, mid, post. }
  now rewrite Hm.
Qed.

Lemma extraction_is_greedy_witness :
  has_char "{" "see " = false
  /\ has_char "}" " or {" = false
  /\ extractJsonFromReply ("see " ++ lbrace ++ "} {" ++ rbrace ++ " or {")
     = JNull.
Proof.
  split; [reflexivity |]. split; [reflexivity |].
  now rewrite (proj1 extraction_is_greedy "see " "} {" " or {" eq_refl eq_refl).
Defined.

(** C7.  When the transport returned a text whose reply is a string from
    which no brace-delimited part can be taken, or whose brace-delimited
    part does not parse as JSON, the handler answers 500 with the error
    [Invalid AI response format] and the reply text under [raw]. *)
Theorem unparsable_reply_is_500 cfg E req w p key text w' reply :
  reaches_transport cfg req p key ->
  callAi E (make_fullPrompt p) key w = (Normal text, w') ->
  reply_of text = JString reply ->
  (forall m, ~ brace_delimited reply m)
  \/ (exists m, brace_delimited reply m /\ JSON_parse m = None) ->
  POST cfg E req w
  = (Normal (json_reply 500
               (JObject [("error", JString "Invalid AI response format");
                         ("raw", JString reply)])),
     w').
Proof.
  intros Hreach Hrun Hreply Hbad.
  rewrite (POST_live cfg E req p key w Hreach), Hrun.
  assert (Hnull : extractJsonFromReply reply = JNull).
  { unfold extractJsonFromReply. destruct Hbad as [Hnone | (m & Hm & Hparse)].
    - now rewrite (match_braces_none reply Hnone).
    - apply match_braces_spec in Hm. now rewrite Hm, Hparse. }
  unfold interpret, call_extract, bind. rewrite Hreply. unfold ret at 1.
  now rewrite Hnull.
Qed.

Lemma form_request_reaches_transport :
  reaches_transport live_config (prompt_request "form") "form" "secret".
Proof.
  split; [| repeat split; discriminate].
  exists (JObject [("prompt", JString "form")]). split; reflexivity.
Defined.

Lemma unparsable_reply_is_500_witness :
  reaches_transport live_config (prompt_request "form") "form" "secret"
  /\ reply_of "no json at all" = JString "no json at all"
  /\ (forall m, ~ brace_delimited "no json at all" m)
  /\ POST live_config chatty_env (prompt_request "form") start
     = (Normal (json_reply 500
                  (JObject [("error", JString "Invalid AI response format");
                            ("raw", JString "no json at all")])),
        snd (callAi chatty_env (make_fullPrompt "form") "secret" start)).
Proof.
  assert (Hnone : forall m, ~ brace_delimited "no json at all" m).
  { intros m Hm. apply match_braces_spec in Hm. discriminate. }
  split; [exact form_request_reaches_transport |].
  split; [reflexivity |]. split; [exact Hnone |].
  apply (unparsable_reply_is_500 live_config chatty_env (prompt_request "form") start
           "form" "secret" "no json at all");
    [exact form_request_reaches_transport | reflexivity | reflexivity
    | left; exact Hnone].
Defined.

(** ** Timeouts *)

(** A pass that is not the last and whose call is aborted sleeps the
    plain backoff, without a random draw, and continues. *)
Lemma attempt_body_abort E p key attempt w err :
  attempt < MAX_RETRIES ->
  fetch_result E (List.length (calls w)) = Rejected err ->
  err_name err = "AbortError" ->
  exists w',
    attempt_body E p key attempt w = (Normal Continue, w')
    /\ calls w' = (calls w ++ [the_call p key])%list
    /\ draws w' = draws w
    /\ sleeps w' = (sleeps w ++ [num_of_Z (backoff attempt)])%list.
Proof.
  intros Hlt Hf Hname. apply lt_max_retries in Hlt.
  unfold attempt_body, try_catch, attempt_try, attempt_catch, bind, fetch.
  rewrite Hf, Hname, Hlt. simpl. now eexists.
Qed.

(** A run in which every call is aborted: the sleeps are the plain
    backoffs of the passes before the last, and the run throws the
    timeout error. *)
Lemma callAi_from_aborts E p key :
  forall remaining attempt w,
    remaining + attempt = MAX_RETRIES + 1 ->
    1 <= remaining ->
    (forall i, i < remaining ->
       timed_out (fetch_result E (List.length (calls w) + i))) ->
    exists w',
      callAi_from E p key remaining attempt w
      = (Throw (Error "AI request timed out"), w')
      /\ List.length (calls w') = List.length (calls w) + remaining
      /\ draws w' = draws w
      /\ sleeps w'
         = (sleeps w
            ++ map (fun a => num_of_Z (backoff a)) (seq attempt (remaining - 1)))%list.
Proof.
  induction remaining as [| remaining IH]; intros attempt w Hsum Hpos Hall;
    [lia |].
  destruct (Hall 0) as (err & Hf & Hname); [lia |].
  rewrite Nat.add_0_r in Hf.
  rewrite callAi_from_step.
  destruct remaining as [| remaining].
  - assert (attempt = MAX_RETRIES) by lia. subst attempt.
    unfold attempt_body, try_catch, attempt_try, attempt_catch, bind, fetch.
    rewrite Hf, Hname. simpl. eexists. split; [reflexivity |]. simpl.
    rewrite length_app, app_nil_r. simpl. auto.
  - assert (Hlt : attempt < MAX_RETRIES) by lia.
    destruct (attempt_body_abort E p key attempt w err Hlt Hf Hname)
      as (w1 & -> & Hc & Hd & Hs).
    assert (Hlen : List.length (calls w1) = S (List.length (calls w))).
    { rewrite Hc, length_app. simpl. lia. }
    destruct (IH (S attempt) w1) as (w' & Hrun & Hc' & Hd' & Hs'); try lia.
    + intros i Hi. rewrite Hlen. replace (S (List.length (calls w)) + i)
        with (List.length (calls w) + S i) by lia. apply Hall. lia.
    + exists w'. split; [exact Hrun |].
      rewrite Hc', Hd', Hs', Hlen, Hd, Hs. repeat split; [lia |].
      replace (S (S remaining) - 1) with (S remaining) by lia.
      replace (S remaining - 1) with remaining by lia.
      simpl. now rewrite <- app_assoc.
Qed.

(** C9.  A call aborted by the per-attempt timer on a pass that is not
    the last is retried after a sleep of exactly [1000 * 2^attempt]
    milliseconds, with no random draw.  When each of the four calls is
    aborted, the transport sleeps 1000, 2000 and 4000 milliseconds, throws
    the timeout error after the fourth call, and the handler answers 504
    with the error [AI request timed out]. *)
Theorem timeouts_back_off_then_504 :
  (forall E p key attempt w err,
     attempt < MAX_RETRIES ->
     fetch_result E (List.length (calls w)) = Rejected err ->
     err_name err = "AbortError" ->
     exists w',
       attempt_body E p key attempt w = (Normal Continue, w')
       /\ sleeps w' = (sleeps w ++ [num_of_Z (1000 * 2 ^ Z.of_nat attempt)])%list
       /\ draws w' = draws w)
  /\ (forall cfg E req p key,
        reaches_transport cfg req p key ->
        (forall i, i <= MAX_RETRIES -> timed_out (fetch_result E i)) ->
        exists w',
          callAi E (make_fullPrompt p) key start
          = (Throw (Error "AI request timed out"), w')
          /\ List.length (calls w') = 4
          /\ sleeps w' = [num_of_Z 1000; num_of_Z 2000; num_of_Z 4000]
          /\ POST cfg E req start
             = (Normal (json_reply 504
                          (JObject [("error", JString "AI request timed out")])),
                w')).
Proof.
  split.
  - intros E p key attempt w err Hlt Hf Hname.
    destruct (attempt_body_abort E p key attempt w err Hlt Hf Hname)
      as (w' & Hrun & _ & Hd & Hs).
    exists w'. auto.
  - intros cfg E req p key Hreach Hall.
    destruct (callAi_from_aborts E (make_fullPrompt p) key (MAX_RETRIES + 1) 0 start)
      as (w' & Hrun & Hc & _ & Hs); [reflexivity | unfold MAX_RETRIES; lia | |].
    + intros i Hi. apply Hall. unfold MAX_RETRIES in *. simpl. lia.
    + exists w'. fold (callAi E (make_fullPrompt p) key) in Hrun.
      repeat split; [exact Hrun | exact Hc | exact Hs |].
      now rewrite (POST_live cfg E req p key start Hreach), Hrun.
Qed.

Lemma timeouts_back_off_then_504_witness :
  reaches_transport live_config (prompt_request "form") "form" "secret"
  /\ (forall i, i <= MAX_RETRIES -> timed_out (fetch_result abort_env i))
  /\ exists w',
       sleeps w' = [num_of_Z 1000; num_of_Z 2000; num_of_Z 4000]
       /\ POST live_config abort_env (prompt_request "form") start
          = (Normal (json_reply 504
                       (JObject [("error", JString "AI request timed out")])),
             w').
Proof.
  assert (Hall : forall i, i <= MAX_RETRIES -> timed_out (fetch_result abort_env i)).
  { intros i _. exists abort_error. split; reflexivity. }
  split; [exact form_request_reaches_transport |]. split; [exact Hall |].
  destruct (proj2 timeouts_back_off_then_504 live_config abort_env (prompt_request "form")
              "form" "secret" form_request_reaches_transport Hall)
    as (w' & _ & _ & Hs & Hpost).
  exists w'. split; assumption.
Defined.

(** ** Success after retries *)

Lemma status_503_not_ok res : res_status res = 503%N -> res_ok res = false.
Proof. intros H. unfold res_ok. now rewrite H. Qed.

Lemma status_429_not_ok res : res_status res = 429%N -> res_ok res = false.
Proof. intros H. unfold res_ok. now rewrite H. Qed.

(** C8.  When the upstream answers 503, 503 and then 200, [callAi] makes
    exactly three calls and returns the text of the 200 response as it
    is.  More generally, whenever a call within the four passes gets a
    2xx response after only failed calls, the run returns that text
    right there: with [k] failed calls before it, [k + 1] calls are made
    in all. *)
Theorem success_returns_at_once :
  (forall E p key r0 r1 r2,
     fetch_result E 0 = Resolved r0 -> res_status r0 = 503%N ->
     fetch_result E 1 = Resolved r1 -> res_status r1 = 503%N ->
     fetch_result E 2 = Resolved r2 -> res_status r2 = 200%N ->
     exists w',
       callAi E p key start = (Normal (res_text r2), w')
       /\ List.length (calls w') = 3)
  /\ (forall E p key k res,
        k <= MAX_RETRIES ->
        (forall i, i < k -> outcome_ok (fetch_result E i) = false) ->
        fetch_result E k = Resolved res ->
        res_ok res = true ->
        exists w',
          callAi E p key start = (Normal (res_text res), w')
          /\ List.length (calls w') = k + 1).
Proof.
  assert (Hgen : forall E p key k res,
             k <= MAX_RETRIES ->
             (forall i, i < k -> outcome_ok (fetch_result E i) = false) ->
             fetch_result E k = Resolved res ->
             res_ok res = true ->
             exists w',
               callAi E p key start = (Normal (res_text res), w')
               /\ List.length (calls w') = k + 1).
  { intros E p key k res Hk Hfail Hres Hok.
    destruct (callAi_from_returns E p key k (MAX_RETRIES + 1) 0 start res)
      as (w' & Hrun & Hc & _); try assumption; try reflexivity.
    - unfold MAX_RETRIES in *. lia.
    - exists w'. split; [exact Hrun | exact Hc]. }
  split; [| exact Hgen].
  intros E p key r0 r1 r2 H0 S0 H1 S1 H2 S2.
  apply (Hgen E p key 2 r2); [unfold MAX_RETRIES; lia | | exact H2 |].
  - intros i Hi. destruct i as [| [| i]]; [| | lia].
    + rewrite H0. now apply status_503_not_ok.
    + rewrite H1. now apply status_503_not_ok.
  - unfold res_ok. now rewrite S2.
Qed.

Lemma success_returns_at_once_witness :
  exists w',
    callAi flaky_env "prompt" "secret" start = (Normal "fine", w')
    /\ List.length (calls w') = 3.
Proof.
  apply (proj1 success_returns_at_once flaky_env "prompt" "secret"
           {| res_status := 503; res_retry_after := None; res_text := "busy" |}
           {| res_status := 503; res_retry_after := None; res_text := "busy" |}
           {| res_status := 200; res_retry_after := None; res_text := "fine" |});
    reflexivity.
Defined.

(** ** The wait after a 429 or a 503 *)

(** The successive overwriting of [waitMs] amounts to a choice by
    precedence: hint in the body, then numeric header, then fallback. *)
Lemma retry_wait_precedence res attempt jit :
  retry_wait res attempt jit
  = match body_hint (res_text res) with
    | Some secs => Math_ceil (num_mul secs (num_of_Z 1000))
    | None =>
        match header_seconds (res_retry_after res) with
        | Some n => num_mul n (num_of_Z 1000)
        | None => num_of_Z (backoff attempt + jit)
        end
    end.
Proof.
  unfold retry_wait, body_hint, header_seconds.
  destruct (match_retry_in (res_text res)) as [secs |].
  - destruct (isNaN (parseFloat secs)); simpl; [| reflexivity].
    destruct (res_retry_after res) as [h |]; [| reflexivity].
    destruct (String.eqb h EmptyString); simpl; [reflexivity |].
    now destruct (isNaN (parseInt h)).
  - destruct (res_retry_after res) as [h |]; [| reflexivity].
    destruct (String.eqb h EmptyString); simpl; [reflexivity |].
    now destruct (isNaN (parseInt h)).
Qed.

(** A 429 or 503 on a pass that is not the last: one random draw, one
    sleep of [retry_wait], and [continue]. *)
Lemma attempt_body_rate_limited E p key attempt w res :
  attempt < MAX_RETRIES ->
  fetch_result E (List.length (calls w)) = Resolved res ->
  res_status res = 429%N \/ res_status res = 503%N ->
  exists w',
    attempt_body E p key attempt w = (Normal Continue, w')
    /\ calls w' = (calls w ++ [the_call p key])%list
    /\ sleeps w'
       = (sleeps w ++ [retry_wait res attempt (random300 E (draws w))])%list.
Proof.
  intros Hlt Hf Hstatus. apply lt_max_retries in Hlt.
  assert (Hok : res_ok res = false).
  { destruct Hstatus; [now apply status_429_not_ok | now apply status_503_not_ok]. }
  assert (Hretry : ((res_status res =? 429) || (res_status res =? 503))%N = true).
  { destruct Hstatus as [-> | ->]; reflexivity. }
  unfold attempt_body, try_catch, attempt_try, bind, fetch.
  rewrite Hf, Hok, Hretry, Hlt. simpl. now eexists.
Qed.

(** C5.  After a 429 or a 503 on a pass that is not the last, the
    transport sleeps once before the next call, and the wait is chosen
    by precedence: the seconds of a [retry in <seconds>s] hint in the
    body give [Math.ceil(seconds * 1000)]; failing that, a numeric
    [Retry-After] header gives its seconds times 1000; failing that, the
    wait is [1000 * 2^attempt] plus a jitter in [0, 300).  A body
    [retry in 5.5s] gives 5500 whatever the header, and a header [2]
    without a hint gives 2000. *)
Theorem retry_wait_by_precedence E p key attempt w res :
  attempt < MAX_RETRIES ->
  random_in_range E ->
  fetch_result E (List.length (calls w)) = Resolved res ->
  res_status res = 429%N \/ res_status res = 503%N ->
  exists w' ms,
    attempt_body E p key attempt w = (Normal Continue, w')
    /\ sleeps w' = (sleeps w ++ [ms])%list
    /\ match body_hint (res_text res), header_seconds (res_retry_after res) with
       | Some secs, _ => ms = Math_ceil (num_mul secs (num_of_Z 1000))
       | None, Some n => ms = num_mul n (num_of_Z 1000)
       | None, None =>
           exists j, (0 <= j < 300)%Z
                     /\ ms = num_of_Z (1000 * 2 ^ Z.of_nat attempt + j)
       end
    /\ (res_text res = "retry in 5.5s" -> ms = num_of_Z 5500)
    /\ (body_hint (res_text res) = None -> res_retry_after res = Some "2" ->
        ms = num_of_Z 2000).
Proof.
  intros Hlt Hrand Hf Hstatus.
  destruct (attempt_body_rate_limited E p key attempt w res Hlt Hf Hstatus)
    as (w' & Hrun & _ & Hs).
  exists w', (retry_wait res attempt (random300 E (draws w))).
  split; [exact Hrun |]. split; [exact Hs |].
  rewrite retry_wait_precedence. repeat split.
  - destruct (body_hint (res_text res)); [reflexivity |].
    destruct (header_seconds (res_retry_after res)); [reflexivity |].
    exists (random300 E (draws w)). split; [apply Hrand | reflexivity].
  - intros ->. reflexivity.
  - intros -> ->. reflexivity.
Qed.

Lemma retry_wait_by_precedence_witness :
  random_in_range quota_env
  /\ exists w',
       attempt_body quota_env "prompt" "secret" 0 start = (Normal Continue, w')
       /\ sleeps w' = [num_of_Z 5500].
Proof.
  assert (Hrand : random_in_range quota_env).
  { intros k. simpl. lia. }
  split; [exact Hrand |].
  destruct (retry_wait_by_precedence quota_env "prompt" "secret" 0 start
              {| res_status := 429; res_retry_after := Some "2";
                 res_text := "Quota exceeded, retry in 5.5s." |})
    as (w' & ms & Hrun & Hs & Hms & _);
    [unfold MAX_RETRIES; lia | exact Hrand | reflexivity | left; reflexivity |].
  exists w'. split; [exact Hrun |]. rewrite Hs. simpl. f_equal. exact Hms.
Defined.

(** The product is the binary64 one: 32.7 is not a binary fraction, 1000
    times its nearest number rounds to just above 32700, and the wait is
    32701 milliseconds. *)
Example hint_product_is_rounded :
  Math_ceil (num_mul (parseFloat "32.7") (num_of_Z 1000)) = num_of_Z 32701.
Proof. reflexivity. Qed.

(** ** Exhausted retries *)

(** Every run of the loop either returns a text or throws the error of
    one of its passes: the [throw] after the loop is never reached. *)
Lemma callAi_from_outcome E p key :
  forall remaining attempt w,
    remaining + attempt = MAX_RETRIES + 1 ->
    1 <= remaining ->
    (exists text w', callAi_from E p key remaining attempt w = (Normal text, w'))
    \/ (exists i w',
          callAi_from E p key remaining attempt w
          = (Throw (attempt_error (fetch_result E i)), w')).
Proof.
  induction remaining as [| remaining IH]; intros attempt w Hsum Hpos; [lia |].
  rewrite callAi_from_step.
  destruct (outcome_ok (fetch_result E (List.length (calls w)))) eqn:Hok.
  - destruct (fetch_result E (List.length (calls w))) as [res |] eqn:Hf;
      [| discriminate].
    destruct (attempt_body_success E p key attempt w res Hf Hok) as (w' & -> & _).
    left. now exists (res_text res), w'.
  - destruct remaining as [| remaining].
    + assert (attempt = MAX_RETRIES) by lia. subst attempt.
      destruct (attempt_body_last E p key w Hok) as (w' & -> & _).
      right. now exists (List.length (calls w)), w'.
    + assert (Hlt : attempt < MAX_RETRIES) by lia.
      destruct (attempt_body_retry E p key attempt w Hlt Hok) as (w1 & ms & -> & _).
      apply IH; lia.
Qed.

(** C2, as the code has it.  When none of the [MAX_RETRIES + 1] calls
    gets a 2xx response, [callAi] makes them all and throws the error of
    the last pass: [AI API error <status>: <body>] after a response,
    [AI request timed out] after an abort, the rejection itself after any
    other failure.  No run reaches the [throw] after the loop: a run
    returns a text or throws the error of one of its passes. *)
Theorem exhaustion_throws_last_error :
  (forall E p key,
     (forall i, i <= MAX_RETRIES -> outcome_ok (fetch_result E i) = false) ->
     exists w',
       callAi E p key start
       = (Throw (attempt_error (fetch_result E MAX_RETRIES)), w')
       /\ List.length (calls w') = MAX_RETRIES + 1)
  /\ (forall E p key w,
        (exists text w', callAi E p key w = (Normal text, w'))
        \/ (exists i w',
              callAi E p key w = (Throw (attempt_error (fetch_result E i)), w'))).
Proof.
  split.
  - intros E p key Hfail.
    destruct (callAi_from_exhausts E p key (MAX_RETRIES + 1) 0 start)
      as (w' & Hrun & Hc & _); [reflexivity | unfold MAX_RETRIES; lia | |].
    + intros i Hi. apply Hfail. unfold MAX_RETRIES in *. simpl. lia.
    + exists w'. split; [exact Hrun | exact Hc].
  - intros E p key w. apply callAi_from_outcome; [reflexivity |].
    unfold MAX_RETRIES. lia.
Qed.

Lemma exhaustion_throws_last_error_witness :
  (forall i, i <= MAX_RETRIES -> outcome_ok (fetch_result busy_env i) = false)
  /\ exists w',
       callAi busy_env "prompt" "secret" start
       = (Throw (Error "AI API error 503: busy"), w')
       /\ List.length (calls w') = 4.
Proof.
  assert (Hfail : forall i, i <= MAX_RETRIES ->
                            outcome_ok (fetch_result busy_env i) = false).
  { intros i _. reflexivity. }
  split; [exact Hfail |].
  exact (proj1 exhaustion_throws_last_error busy_env "prompt" "secret" Hfail).
Defined.

(** C2 as the specification words it fails: with four 503 responses no
    attempt gets a 2xx response, yet the error thrown is not the generic
    one. *)
Lemma exhaustion_is_not_generic :
  (forall i, i <= MAX_RETRIES -> outcome_ok (fetch_result busy_env i) = false)
  /\ fst (callAi busy_env "prompt" "secret" start)
     = Throw (Error "AI API error 503: busy")
  /\ fst (callAi busy_env "prompt" "secret" start)
     <> Throw (Error "AI request failed after retries").
Proof.
  split; [intros i _; reflexivity |]. split; [reflexivity |].
  intros H. discriminate H.
Qed.

(** ** A status that is not to be retried *)

(** A non-2xx status other than 429 and 503 on a pass that is not the
    last: the error thrown at line 67 is caught by the loop's own
    [catch], which sleeps the jittered backoff and continues. *)
Lemma attempt_body_other_status E p key attempt w res :
  attempt < MAX_RETRIES ->
  fetch_result E (List.length (calls w)) = Resolved res ->
  res_ok res = false ->
  res_status res <> 429%N ->
  res_status res <> 503%N ->
  exists w',
    attempt_body E p key attempt w = (Normal Continue, w')
    /\ calls w' = (calls w ++ [the_call p key])%list
    /\ sleeps w'
       = (sleeps w ++ [num_of_Z (backoff attempt + random300 E (draws w))])%list.
Proof.
  intros Hlt Hf Hok H429 H503. apply lt_max_retries in Hlt.
  apply N.eqb_neq in H429, H503.
  unfold attempt_body, try_catch, attempt_try, attempt_catch, bind, fetch.
  rewrite Hf, Hok, H429, H503, Hlt. simpl. now eexists.
Qed.

(** C1, the code at a 403.  Against an upstream that answers 403 the
    first pass does not end the call: it sleeps and continues, the
    transport makes four calls with three sleeps in between, and only
    then does the handler answer 502. *)
Theorem forbidden_is_retried :
  (exists w1,
     attempt_body forbidden_env (make_fullPrompt "form") "secret" 0 start
     = (Normal Continue, w1))
  /\ exists w',
       POST live_config forbidden_env (prompt_request "form") start
       = (Normal (json_reply 502
                    (JObject [("error", JString "AI API error");
                              ("details", JString "AI API error 403: Forbidden")])),
          w')
       /\ List.length (calls w') = 4
       /\ List.length (sleeps w') = 3.
Proof.
  split.
  - destruct (attempt_body_other_status forbidden_env (make_fullPrompt "form")
                "secret" 0 start
                {| res_status := 403; res_retry_after := None; res_text := "Forbidden" |})
      as (w1 & Hrun & _); try reflexivity; try discriminate.
    + unfold MAX_RETRIES. lia.
    + now exists w1.
  - eexists. split; [vm_compute; reflexivity |]. split; reflexivity.
Qed.

(** ** A request body that is not JSON *)

(** C10, as the code has it.  When the request body does not parse,
    [req.json()] throws before the prompt check: no outbound call is
    made and the answer is never the 400 of the prompt check.  The answer
    is chosen from the message of the [SyntaxError]: 500 with [Server
    error] when the message holds neither [timed out] nor [AI API error],
    504 when it holds [timed out]. *)
Theorem invalid_json_body cfg E req w :
  JSON_parse (req_text req) = None ->
  let msg := syntax_error_message E (req_text req) in
  (exists reply,
     POST cfg E req w = (Normal reply, w) /\ reply_status reply <> 400%N)
  /\ (includes "timed out" msg = false ->
      includes "AI API error" msg = false ->
      POST cfg E req w
      = (Normal (json_reply 500 (JObject [("error", JString "Server error")])), w))
  /\ (includes "timed out" msg = true ->
      POST cfg E req w
      = (Normal (json_reply 504 (JObject [("error", JString "AI request timed out")])),
         w)).
Proof.
  intros Hbody msg.
  assert (Hpost : POST cfg E req w
                  = (Normal (on_error {| err_name := "SyntaxError";
                                         err_message := msg |}), w)).
  { unfold POST, try_catch, handle, req_json, bind. now rewrite Hbody. }
  rewrite Hpost. unfold on_error. simpl err_message. repeat split.
  - eexists. split; [reflexivity |].
    destruct (includes "timed out" msg); [discriminate |].
    destruct (includes "AI API error" msg); discriminate.
  - now intros -> ->.
  - now intros ->.
Qed.

Lemma invalid_json_body_witness :
  JSON_parse (req_text {| req_text := "{prompt: 1}" |}) = None
  /\ POST live_config abort_env {| req_text := "{prompt: 1}" |} start
     = (Normal (json_reply 500 (JObject [("error", JString "Server error")])), start).
Proof.
  split; [reflexivity |].
  apply (proj1 (proj2 (invalid_json_body live_config abort_env
                         {| req_text := "{prompt: 1}" |} start eq_refl)));
    reflexivity.
Defined.

(** C10 as the specification words it fails on an engine that quotes the
    text in its message: the body [x timed out] is not JSON, and the
    handler answers 504, not 500. *)
Lemma invalid_json_body_can_be_504 :
  JSON_parse (req_text {| req_text := "x timed out" |}) = None
  /\ POST live_config v8_env {| req_text := "x timed out" |} start
     = (Normal (json_reply 504 (JObject [("error", JString "AI request timed out")])),
        start)
  /\ POST live_config v8_env {| req_text := "x timed out" |} start
     <> (Normal (json_reply 500 (JObject [("error", JString "Server error")])), start).
Proof.
  split; [reflexivity |]. split; [reflexivity |]. intros H. discriminate H.
Qed.

(* ------------------------------------------------------------------ *)
(** * Further properties of the code *)


(** ** The trace of a run *)

(** One pass makes one call; it sleeps once when it continues and not at
    all when it returns or throws. *)
Lemma attempt_body_trace E p key attempt w :
  attempt <= MAX_RETRIES ->
  exists step w',
    attempt_body E p key attempt w = (step, w')
    /\ calls w' = (calls w ++ [the_call p key])%list
    /\ match step with
       | Normal Continue =>
           attempt < MAX_RETRIES
           /\ List.length (sleeps w') = S (List.length (sleeps w))
       | _ => sleeps w' = sleeps w
       end.
Proof.
  intros Hle.
  destruct (outcome_ok (fetch_result E (List.length (calls w)))) eqn:Hok.
  - destruct (fetch_result E (List.length (calls w))) as [res |] eqn:Hf;
      [| discriminate].
    destruct (attempt_body_success E p key attempt w res Hf Hok)
      as (w' & Hrun & Hc & _ & Hs).
    now exists (Normal (ReturnText (res_text res))), w'.
  - destruct (Nat.eq_dec attempt MAX_RETRIES) as [-> | Hne].
    + destruct (attempt_body_last E p key w Hok) as (w' & Hrun & Hc & Hs).
      eexists _, w'. split; [exact Hrun |]. now split.
    + assert (Hlt : attempt < MAX_RETRIES) by lia.
      destruct (attempt_body_retry E p key attempt w Hlt Hok)
        as (w' & ms & Hrun & Hc & Hs).
      exists (Normal Continue), w'. split; [exact Hrun |]. split; [exact Hc |].
      split; [exact Hlt |]. rewrite Hs, length_app. simpl. lia.
Qed.

Lemma callAi_from_trace E p key :
  forall remaining attempt w,
    remaining + attempt = MAX_RETRIES + 1 ->
    1 <= remaining ->
    exists n,
      1 <= n <= remaining
      /\ calls (snd (callAi_from E p key remaining attempt w))
         = (calls w ++ repeat (the_call p key) n)%list
      /\ List.length (sleeps (snd (callAi_from E p key remaining attempt w)))
         = List.length (sleeps w) + (n - 1).
Proof.
  induction remaining as [| remaining IH]; intros attempt w Hsum Hpos; [lia |].
  rewrite callAi_from_step.
  destruct (attempt_body_trace E p key attempt w) as (step & w1 & Hrun & Hc & Hstep);
    [lia |].
  rewrite Hrun.
  destruct step as [[text |] | e].
  - exists 1. simpl. rewrite Hc, Hstep. repeat split; lia.
  - destruct Hstep as [Hlt Hs].
    destruct remaining as [| remaining]; [lia |].
    destruct (IH (S attempt) w1) as (n & Hn & Hcalls & Hsleeps); try lia.
    exists (S n). rewrite Hcalls, Hsleeps, Hc, Hs, <- app_assoc. simpl.
    repeat split; lia.
  - exists 1. simpl. rewrite Hc, Hstep. repeat split; lia.
Qed.

(** X1.  Whatever the upstream does, a run of [callAi] makes at least
    one and at most [MAX_RETRIES + 1] outbound calls, all of them the
    same call (same URL, same prompt), and it sleeps exactly once between
    two consecutive calls: one sleep fewer than calls. *)
Theorem callAi_trace E p key :
  exists n,
    1 <= n <= MAX_RETRIES + 1
    /\ calls (snd (callAi E p key start)) = repeat (the_call p key) n
    /\ List.length (sleeps (snd (callAi E p key start))) = n - 1.
Proof.
  destruct (callAi_from_trace E p key (MAX_RETRIES + 1) 0 start) as (n & Hn & Hc & Hs);
    [reflexivity | unfold MAX_RETRIES; lia |].
  exists n. repeat split; try lia; assumption.
Qed.

(** ** What the handler sends upstream *)

Lemma interpret_world text w : snd (interpret text w) = w.
Proof.
  unfold interpret, call_extract, bind.
  destruct (reply_of text); try reflexivity.
  unfold ret at 1. now destruct (negb (truthy (Some (extractJsonFromReply s)))).
Qed.

Lemma POST_live_world cfg E req p key w :
  reaches_transport cfg req p key ->
  snd (POST cfg E req w) = snd (callAi E (make_fullPrompt p) key w).
Proof.
  intros Hreach. rewrite (POST_live cfg E req p key w Hreach).
  destruct (callAi E (make_fullPrompt p) key w) as [[text | e] w']; [| reflexivity].
  pose proof (interpret_world text w') as Hw.
  destruct (interpret text w') as [[reply | e] w'']; exact Hw.
Qed.

(** X2.  Every request that gets past the checks makes between one and
    four outbound calls, each to the endpoint with the configured key in
    the query and with the system prompt, the line [Form:] and the
    caller's prompt as the text. *)
Theorem handler_calls_upstream cfg E req p key :
  reaches_transport cfg req p key ->
  exists n,
    1 <= n <= 4
    /\ calls (snd (POST cfg E req start))
       = repeat
           {| call_url :=
                "https://generativelanguage.googleapis.com/v1/models/gemini-2.5-flash:generateContent?key="
                ++ key;
              call_prompt := systemPrompt ++ newline ++ "Form:" ++ newline ++ p |}
           n.
Proof.
  intros Hreach. rewrite (POST_live_world cfg E req p key start Hreach).
  destruct (callAi_from_trace E (make_fullPrompt p) key (MAX_RETRIES + 1) 0 start)
    as (n & Hn & Hc & _); [reflexivity | unfold MAX_RETRIES; lia |].
  exists n. split; [unfold MAX_RETRIES in Hn; lia | exact Hc].
Qed.

Lemma handler_calls_upstream_witness :
  reaches_transport live_config (prompt_request "form") "form" "secret"
  /\ exists n,
       1 <= n <= 4
       /\ calls (snd (POST live_config forbidden_env (prompt_request "form") start))
          = repeat (the_call (make_fullPrompt "form") "secret") n.
Proof.
  split; [exact form_request_reaches_transport |].
  exact (handler_calls_upstream live_config forbidden_env (prompt_request "form")
           "form" "secret" form_request_reaches_transport).
Defined.

(** ** No key *)

(** X3.  With a valid prompt and mock mode off, the handler answers 500
    [Server misconfiguration] without any outbound call when no key is
    usable: when [GEMINI_API_KEY] is the empty string, whatever
    [GOOGLE_GEMINI_API_KEY] holds ([??] falls back only on a variable
    that is not set), or when it is not set and [GOOGLE_GEMINI_API_KEY]
    is not set or empty. *)
Theorem missing_key_is_500 cfg E req w body p :
  JSON_parse (req_text req) = Some body ->
  prop "prompt" (Some body) = Some (JString p) ->
  p <> EmptyString ->
  useMock cfg = false ->
  GEMINI_API_KEY cfg = Some EmptyString
  \/ (GEMINI_API_KEY cfg = None
      /\ (GOOGLE_GEMINI_API_KEY cfg = None
          \/ GOOGLE_GEMINI_API_KEY cfg = Some EmptyString)) ->
  POST cfg E req w
  = (Normal (json_reply 500 (JObject [("error", JString "Server misconfiguration")])),
     w).
Proof.
  intros Hbody Hprompt Hp Hmock Hkey. unfold POST, try_catch.
  rewrite (handle_good_prompt cfg E req w body p Hbody Hprompt Hp), Hmock.
  unfold apiKey. destruct Hkey as [-> | [-> [-> | ->]]]; reflexivity.
Qed.

Lemma missing_key_is_500_witness :
  GEMINI_API_KEY shadowed_config = Some EmptyString
  /\ GOOGLE_GEMINI_API_KEY shadowed_config = Some "backup"
  /\ POST shadowed_config abort_env (prompt_request "form") start
     = (Normal (json_reply 500 (JObject [("error", JString "Server misconfiguration")])),
        start).
Proof.
  split; [reflexivity |]. split; [reflexivity |].
  apply (missing_key_is_500 shadowed_config abort_env (prompt_request "form") start
           (JObject [("prompt", JString "form")]) "form");
    [reflexivity | reflexivity | discriminate | reflexivity | left; reflexivity].
Defined.

(** ** Network failures *)

Lemma attempt_body_network_failure E p key attempt w err :
  attempt < MAX_RETRIES ->
  fetch_result E (List.length (calls w)) = Rejected err ->
  err_name err <> "AbortError" ->
  exists w',
    attempt_body E p key attempt w = (Normal Continue, w')
    /\ calls w' = (calls w ++ [the_call p key])%list
    /\ draws w' = S (draws w)
    /\ sleeps w'
       = (sleeps w ++ [num_of_Z (backoff attempt + random300 E (draws w))])%list.
Proof.
  intros Hlt Hf Hname. apply lt_max_retries in Hlt. apply String.eqb_neq in Hname.
  unfold attempt_body, try_catch, attempt_try, attempt_catch, bind, fetch.
  rewrite Hf, Hname, Hlt. simpl. now eexists.
Qed.

(** X4.  A rejected [fetch] that is not an abort, on a pass that is not
    the last, is retried after one sleep of [1000 * 2^attempt] plus a
    jitter below 300.  When the last call is rejected that way after
    three failed calls, [callAi] rethrows that very rejection after four
    calls, and the handler answers 500 [Server error] if the message
    holds neither [timed out] nor [AI API error]. *)
Theorem network_failure_is_retried_then_rethrown :
  (forall E p key attempt w err,
     attempt < MAX_RETRIES ->
     random_in_range E ->
     fetch_result E (List.length (calls w)) = Rejected err ->
     err_name err <> "AbortError" ->
     exists w' ms,
       attempt_body E p key attempt w = (Normal Continue, w')
       /\ sleeps w' = (sleeps w ++ [num_of_Z ms])%list
       /\ (1000 * 2 ^ Z.of_nat attempt <= ms < 1000 * 2 ^ Z.of_nat attempt + 300)%Z)
  /\ (forall cfg E req p key err,
        reaches_transport cfg req p key ->
        (forall i, i < MAX_RETRIES -> outcome_ok (fetch_result E i) = false) ->
        fetch_result E MAX_RETRIES = Rejected err ->
        err_name err <> "AbortError" ->
        includes "timed out" (err_message err) = false ->
        includes "AI API error" (err_message err) = false ->
        exists w',
          callAi E (make_fullPrompt p) key start = (Throw err, w')
          /\ List.length (calls w') = 4
          /\ POST cfg E req start
             = (Normal (json_reply 500 (JObject [("error", JString "Server error")])),
                w')).
Proof.
  split.
  - intros E p key attempt w err Hlt Hrand Hf Hname.
    destruct (attempt_body_network_failure E p key attempt w err Hlt Hf Hname)
      as (w' & Hrun & _ & _ & Hs).
    exists w', (backoff attempt + random300 E (draws w))%Z.
    split; [exact Hrun |]. split; [exact Hs |].
    specialize (Hrand (draws w)). unfold backoff, BASE_DELAY. lia.
  - intros cfg E req p key err Hreach Hfail Hlast Hname Hto Hapi.
    destruct (callAi_from_exhausts E (make_fullPrompt p) key (MAX_RETRIES + 1) 0 start)
      as (w' & Hrun & Hc & _); [reflexivity | unfold MAX_RETRIES; lia | |].
    + intros i Hi. simpl.
      destruct (Nat.eq_dec i MAX_RETRIES) as [-> | Hne].
      * now rewrite Hlast.
      * apply Hfail. unfold MAX_RETRIES in *. simpl in Hi. lia.
    + change (List.length (calls start) + (MAX_RETRIES + 1) - 1)
        with MAX_RETRIES in Hrun.
      rewrite Hlast in Hrun. unfold attempt_error in Hrun.
      apply String.eqb_neq in Hname. rewrite Hname in Hrun.
      exists w'. fold (callAi E (make_fullPrompt p) key) in Hrun.
      split; [exact Hrun |]. split; [exact Hc |].
      rewrite (POST_live cfg E req p key start Hreach), Hrun.
      unfold on_error. now rewrite Hto, Hapi.
Qed.

Lemma offline_env_fails (i : nat) : outcome_ok (fetch_result offline_env i) = false.
Proof. reflexivity. Defined.

Lemma zero_jitter_in_range (r : FetchResult) : random_in_range (constant_env r).
Proof. intros k. simpl. lia. Defined.

Lemma network_failure_is_retried_then_rethrown_witness :
  reaches_transport live_config (prompt_request "form") "form" "secret"
  /\ fetch_result offline_env MAX_RETRIES = Rejected offline_error
  /\ exists w',
       callAi offline_env (make_fullPrompt "form") "secret" start
       = (Throw offline_error, w')
       /\ POST live_config offline_env (prompt_request "form") start
          = (Normal (json_reply 500 (JObject [("error", JString "Server error")])), w').
Proof.
  split; [exact form_request_reaches_transport |]. split; [reflexivity |].
  destruct (proj2 network_failure_is_retried_then_rethrown live_config offline_env
              (prompt_request "form") "form" "secret" offline_error
              form_request_reaches_transport (fun i _ => offline_env_fails i)
              eq_refl)
    as (w' & Hrun & _ & Hpost); [discriminate | reflexivity | reflexivity |].
  exists w'. split; assumption.
Defined.

(** ** What extraction can yield *)

(** The members parser only ever yields an object. *)
Lemma parse_members_object :
  forall budget s acc v rest,
    parse_members budget s acc = Parsed v rest -> exists members, v = JObject members.
Proof.
  induction budget as [| budget IH]; intros s acc v rest H;
    [simpl in H; discriminate H |].
  cbn [parse_members] in H.
  destruct (starts_with dquote s) as [r |]; [| discriminate].
  destruct (lex_string r) as [[key r1] |]; [| discriminate].
  destruct (starts_with ":" r1) as [r2 |]; [| discriminate].
  destruct (parse_value budget r2) as [v1 r3 | |]; try discriminate.
  destruct (next_separator "}" r3) as [r4 | r4 |]; [| | discriminate].
  - now apply IH in H.
  - injection H as <- _. now eexists.
Qed.

Lemma parse_value_brace (budget : nat) (r : string) :
  parse_value (S budget) (String "{" r)
  = match starts_with "}" r with
    | Some rest => Parsed (JObject []) rest
    | None => parse_members budget r []
    end.
Proof. reflexivity. Qed.

(** A text that starts with an opening brace parses to an object or not
    at all. *)
Lemma JSON_parse_brace (r : string) (v : json) :
  JSON_parse (String "{" r) = Some v -> exists members, v = JObject members.
Proof.
  unfold JSON_parse.
  replace (2 * String.length (String "{" r) + 2)
    with (S (2 * String.length r + 3)) by (simpl; lia).
  rewrite parse_value_brace.
  destruct (starts_with "}" r) as [rest |].
  - destruct (skip_ws rest); [| discriminate]. intros [= <-]. now eexists.
  - destruct (parse_members (2 * String.length r + 3) r []) as [v1 rest | |] eqn:Hm;
      try discriminate.
    destruct (skip_ws rest); [| discriminate]. intros [= <-].
    now apply parse_members_object in Hm.
Qed.

Lemma extraction_yields_object_or_null_aux (reply : string) :
  extractJsonFromReply reply = JNull
  \/ exists members, extractJsonFromReply reply = JObject members.
Proof.
  unfold extractJsonFromReply.
  destruct (match_braces reply) as [m |] eqn:Hm; [| now left].
  destruct (JSON_parse m) as [v |] eqn:Hv; [| now left].
  right. apply match_braces_spec in Hm as (pre & mid & post & _ & -> & _).
  unfold lbrace in Hv. simpl in Hv. now apply JSON_parse_brace in Hv.
Qed.

Lemma extraction_truthy reply m v :
  brace_delimited reply m -> JSON_parse m = Some v ->
  extractJsonFromReply reply = v /\ truthy (Some v) = true.
Proof.
  intros Hm Hv. unfold extractJsonFromReply.
  pose proof Hm as (pre & mid & post & _ & Heq & _).
  apply match_braces_spec in Hm. rewrite Hm, Hv. split; [reflexivity |].
  subst m. unfold lbrace in Hv. simpl in Hv.
  apply JSON_parse_brace in Hv as (members & ->). reflexivity.
Qed.

(** X5.  [extractJsonFromReply] yields [null] or an object, never an
    array, a string, a number or a boolean: what it parses starts with
    an opening brace.  It yields [null] exactly when the reply has no
    brace-delimited part or that part does not parse; otherwise it
    yields the parsed value of that part. *)
Theorem extraction_yields_object_or_null (reply : string) :
  (extractJsonFromReply reply = JNull
   \/ exists members, extractJsonFromReply reply = JObject members)
  /\ (extractJsonFromReply reply = JNull <->
      forall m, brace_delimited reply m -> JSON_parse m = None)
  /\ (forall m v,
        brace_delimited reply m -> JSON_parse m = Some v ->
        extractJsonFromReply reply = v).
Proof.
  split; [apply extraction_yields_object_or_null_aux |]. split.
  - split.
    + intros Hnull m Hm.
      destruct (JSON_parse m) as [v |] eqn:Hv; [| reflexivity].
      destruct (extraction_truthy reply m v Hm Hv) as [Hex Ht].
      rewrite Hnull in Hex. subst v. discriminate Ht.
    + intros Hnone. unfold extractJsonFromReply.
      destruct (match_braces reply) as [m |] eqn:Hm; [| reflexivity].
      apply match_braces_spec in Hm. now rewrite (Hnone m Hm).
  - intros m v Hm Hv. now destruct (extraction_truthy reply m v Hm Hv).
Qed.

(** X6.  When the reply is a string whose brace-delimited part parses,
    the handler answers 200 with the parsed value, and that value is an
    object. *)
Theorem parsable_reply_is_200 cfg E req w p key text w' reply m v :
  reaches_transport cfg req p key ->
  callAi E (make_fullPrompt p) key w = (Normal text, w') ->
  reply_of text = JString reply ->
  brace_delimited reply m ->
  JSON_parse m = Some v ->
  POST cfg E req w = (Normal (json_reply 200 v), w')
  /\ exists members, v = JObject members.
Proof.
  intros Hreach Hrun Hreply Hm Hv.
  destruct (extraction_truthy reply m v Hm Hv) as [Hex Ht].
  split.
  - rewrite (POST_live cfg E req p key w Hreach), Hrun.
    unfold interpret, call_extract, bind. rewrite Hreply. unfold ret at 1.
    now rewrite Hex, Ht.
  - destruct Hm as (pre & mid & post & _ & -> & _).
    unfold lbrace in Hv. simpl in Hv. now apply JSON_parse_brace in Hv.
Qed.

Lemma example_reply_delimited :
  brace_delimited example_reply
    (lbrace ++ quote ++ "validationRules" ++ quote ++ ":[" ++ quote ++ "a" ++ quote ++ "]"
     ++ rbrace).
Proof.
  exists "preamble ",
    (quote ++ "validationRules" ++ quote ++ ":[" ++ quote ++ "a" ++ quote ++ "]"),
    " trailing".
  repeat split.
Defined.

Lemma parsable_reply_is_200_witness :
  reaches_transport live_config (prompt_request "form") "form" "secret"
  /\ POST live_config prose_env (prompt_request "form") start
     = (Normal (json_reply 200 (JObject [("validationRules", JArray [JString "a"])])),
        snd (callAi prose_env (make_fullPrompt "form") "secret" start)).
Proof.
  split; [exact form_request_reaches_transport |].
  apply (parsable_reply_is_200 live_config prose_env (prompt_request "form") start
           "form" "secret" example_reply _ example_reply _ _
           form_request_reaches_transport eq_refl eq_refl example_reply_delimited
           eq_refl).
Defined.

(** ** The replies of the handler *)

Lemma on_error_status e :
  reply_status (on_error e) = 504%N \/ reply_status (on_error e) = 502%N
  \/ reply_status (on_error e) = 500%N.
Proof.
  unfold on_error. destruct (includes "timed out" (err_message e)); [now left |].
  destruct (includes "AI API error" (err_message e)); auto.
Qed.

Lemma interpret_reply text w reply w' :
  interpret text w = (Normal reply, w') ->
  (reply_status reply = 500%N
   /\ reply_json reply
      = JObject [("error", JString "Invalid AI response format");
                 ("raw", reply_of text)])
  \/ (reply_status reply = 200%N /\ exists members, reply_json reply = JObject members).
Proof.
  unfold interpret, call_extract, bind.
  destruct (reply_of text) as [| | | s | |] eqn:Hr; try discriminate.
  unfold ret at 1.
  destruct (extraction_yields_object_or_null_aux s) as [-> | (members & ->)]; simpl.
  - intros [= <- _]. now left.
  - intros [= <- _]. right. split; [reflexivity | now eexists].
Qed.

Lemma handle_reply cfg E req w reply w' :
  handle cfg E req w = (Normal reply, w') ->
  reply = bad_request
  \/ reply = json_reply 200 mock_result
  \/ reply = json_reply 500 (JObject [("error", JString "Server misconfiguration")])
  \/ exists text w1, interpret text w1 = (Normal reply, w').
Proof.
  unfold handle, req_json, bind.
  destruct (JSON_parse (req_text req)) as [body |]; [| discriminate].
  unfold ret at 1.
  destruct (negb (truthy (prop "prompt" (Some body)))
            || negb (is_string (prop "prompt" (Some body)))).
  { intros [= <- _]. now left. }
  destruct (useMock cfg).
  { intros [= <- _]. right. now left. }
  destruct (apiKey cfg) as [[| c key] |];
    try (intros [= <- _]; right; right; now left).
  destruct (callAi E (make_fullPrompt (template_text (prop "prompt" (Some body))))
              (String c key) w) as [[text | e] w1]; [| discriminate].
  intros H. right. right. right. now exists text, w1.
Qed.

(** X7.  The handler always answers: no error escapes it.  The answer
    is a 200 with an object, or a 400, 500, 502 or 504 whose [error]
    member is one of six fixed texts, each tied to its status. *)
Theorem handler_always_replies cfg E req w :
  exists reply w',
    POST cfg E req w = (Normal reply, w')
    /\ let error := prop "error" (Some (reply_json reply)) in
       (reply_status reply = 200%N /\ exists members, reply_json reply = JObject members)
       \/ (reply_status reply = 400%N
           /\ error = Some (JString "Missing or invalid 'prompt' in request body"))
       \/ (reply_status reply = 500%N
           /\ (error = Some (JString "Server misconfiguration")
               \/ error = Some (JString "Invalid AI response format")
               \/ error = Some (JString "Server error")))
       \/ (reply_status reply = 502%N /\ error = Some (JString "AI API error"))
       \/ (reply_status reply = 504%N /\ error = Some (JString "AI request timed out")).
Proof.
  unfold POST, try_catch.
  destruct (handle cfg E req w) as [[reply | e] w'] eqn:Hh.
  - exists reply, w'. split; [reflexivity |].
    destruct (handle_reply cfg E req w reply w' Hh)
      as [-> | [-> | [-> | (text & w1 & Hi)]]].
    + right. left. now split.
    + left. split; [reflexivity | now eexists].
    + right. right. left. split; [reflexivity | now left].
    + destruct (interpret_reply text w1 reply w' Hi) as [[Hs Hj] | [Hs Hj]].
      * right. right. left. split; [exact Hs |]. right. left. now rewrite Hj.
      * left. now split.
  - exists (on_error e), w'. split; [reflexivity |]. unfold on_error.
    destruct (includes "timed out" (err_message e)).
    { right. right. right. right. now split. }
    destruct (includes "AI API error" (err_message e)).
    { right. right. right. left. now split. }
    right. right. left. split; [reflexivity |]. right. now right.
Qed.

(** ** Upstream failures *)

Lemma includes_unfold (needle hay : string) :
  includes needle hay
  = match strip_prefix needle hay with
    | Some _ => true
    | None =>
        match hay with
        | EmptyString => false
        | String _ hay' => includes needle hay'
        end
    end.
Proof. destruct hay; reflexivity. Qed.

Lemma strip_prefix_app (needle rest : string) :
  strip_prefix needle (needle ++ rest) = Some rest.
Proof.
  induction needle as [| a n IH]; simpl; [reflexivity |].
  now rewrite Ascii.eqb_refl.
Qed.

Lemma includes_prefix (needle rest : string) : includes needle (needle ++ rest) = true.
Proof. now rewrite includes_unfold, strip_prefix_app. Qed.

(** X8.  When every call of a run failed and the last one got a non-2xx
    response (a 429 or a 503 included), [callAi] throws
    [AI API error <status>: <body>], and the handler answers 502 with
    that message as [details], unless the message contains [timed out]:
    then it answers 504. *)
Theorem upstream_failure_is_502_or_504 cfg E req p key res :
  reaches_transport cfg req p key ->
  (forall i, i < MAX_RETRIES -> outcome_ok (fetch_result E i) = false) ->
  fetch_result E MAX_RETRIES = Resolved res ->
  res_ok res = false ->
  let msg := "AI API error " ++ decimal (res_status res) ++ ": " ++ res_text res in
  exists w',
    callAi E (make_fullPrompt p) key start = (Throw (Error msg), w')
    /\ (includes "timed out" msg = false ->
        POST cfg E req start
        = (Normal (json_reply 502 (JObject [("error", JString "AI API error");
                                            ("details", JString msg)])), w'))
    /\ (includes "timed out" msg = true ->
        POST cfg E req start
        = (Normal (json_reply 504 (JObject [("error", JString "AI request timed out")])),
           w')).
Proof.
  intros Hreach Hfail Hlast Hok msg.
  destruct (callAi_from_exhausts E (make_fullPrompt p) key (MAX_RETRIES + 1) 0 start)
    as (w' & Hrun & _); [reflexivity | unfold MAX_RETRIES; lia | |].
  - intros i Hi. simpl.
    destruct (Nat.eq_dec i MAX_RETRIES) as [-> | Hne].
    + now rewrite Hlast.
    + apply Hfail. unfold MAX_RETRIES in *. simpl in Hi. lia.
  - change (List.length (calls start) + (MAX_RETRIES + 1) - 1)
      with MAX_RETRIES in Hrun.
    rewrite Hlast in Hrun. unfold attempt_error in Hrun. fold msg in Hrun.
    fold (callAi E (make_fullPrompt p) key) in Hrun.
    exists w'. split; [exact Hrun |].
    rewrite (POST_live cfg E req p key start Hreach), Hrun. unfold on_error.
    assert (Hapi : includes "AI API error" msg = true).
    { unfold msg. apply (includes_prefix "AI API error"). }
    cbn [err_message Error]. split; intros ->; [now rewrite Hapi | reflexivity].
Qed.

Lemma upstream_failure_is_502_or_504_witness :
  reaches_transport live_config (prompt_request "form") "form" "secret"
  /\ exists w',
       POST live_config busy_env (prompt_request "form") start
       = (Normal (json_reply 502 (JObject [("error", JString "AI API error");
                                           ("details",
                                            JString "AI API error 503: busy")])),
          w').
Proof.
  split; [exact form_request_reaches_transport |].
  destruct (upstream_failure_is_502_or_504 live_config busy_env (prompt_request "form")
              "form" "secret"
              {| res_status := 503; res_retry_after := None; res_text := "busy" |}
              form_request_reaches_transport (fun i _ => eq_refl) eq_refl eq_refl)
    as (w' & _ & H502 & _).
  exists w'. apply H502. reflexivity.
Defined.

(** ** Waits the server does not set *)

Lemma attempt_body_own_wait E p key attempt w :
  attempt < MAX_RETRIES ->
  random_in_range E ->
  outcome_ok (fetch_result E (List.length (calls w))) = false ->
  server_paced (fetch_result E (List.length (calls w))) = false ->
  exists w' ms,
    attempt_body E p key attempt w = (Normal Continue, w')
    /\ calls w' = (calls w ++ [the_call p key])%list
    /\ sleeps w' = (sleeps w ++ [num_of_Z ms])%list
    /\ (backoff attempt <= ms < backoff attempt + 300)%Z.
Proof.
  intros Hlt Hrand Hok Hpaced. pose proof (Hrand (draws w)) as Hj.
  destruct (fetch_result E (List.length (calls w))) as [res | err] eqn:Hf.
  - simpl in Hok, Hpaced. apply orb_false_elim in Hpaced as [H429 H503].
    apply N.eqb_neq in H429, H503.
    destruct (attempt_body_other_status E p key attempt w res Hlt Hf Hok H429 H503)
      as (w' & Hrun & Hc & Hs).
    exists w', (backoff attempt + random300 E (draws w))%Z.
    repeat split; try assumption; lia.
  - destruct (String.eqb (err_name err) "AbortError") eqn:Hname.
    + apply String.eqb_eq in Hname.
      destruct (attempt_body_abort E p key attempt w err Hlt Hf Hname)
        as (w' & Hrun & Hc & _ & Hs).
      exists w', (backoff attempt). repeat split; try assumption; lia.
    + apply String.eqb_neq in Hname.
      destruct (attempt_body_network_failure E p key attempt w err Hlt Hf Hname)
        as (w' & Hrun & Hc & _ & Hs).
      exists w', (backoff attempt + random300 E (draws w))%Z.
      repeat split; try assumption; lia.
Qed.

Lemma callAi_from_own_waits E p key :
  random_in_range E ->
  forall remaining attempt w,
    remaining + attempt = MAX_RETRIES + 1 ->
    1 <= remaining ->
    (forall i, i < remaining ->
       server_paced (fetch_result E (List.length (calls w) + i)) = false) ->
    exists waits,
      sleeps (snd (callAi_from E p key remaining attempt w))
      = (sleeps w ++ map num_of_Z waits)%list
      /\ List.length waits < remaining
      /\ forall i ms, nth_error waits i = Some ms ->
                      (backoff (attempt + i) <= ms < backoff (attempt + i) + 300)%Z.
Proof.
  intros Hrand.
  induction remaining as [| remaining IH]; intros attempt w Hsum Hpos Hpaced; [lia |].
  rewrite callAi_from_step.
  assert (Hnil : forall w1,
             sleeps w1 = sleeps w ->
             exists waits,
               sleeps w1 = (sleeps w ++ map num_of_Z waits)%list
               /\ List.length waits < S remaining
               /\ forall i ms, nth_error waits i = Some ms ->
                   (backoff (attempt + i) <= ms < backoff (attempt + i) + 300)%Z).
  { intros w1 Hs. exists []. simpl. rewrite app_nil_r.
    split; [exact Hs |]. split; [lia |].
    intros [| i] ms H; discriminate H. }
  destruct (outcome_ok (fetch_result E (List.length (calls w)))) eqn:Hok.
  - destruct (fetch_result E (List.length (calls w))) as [res |] eqn:Hf;
      [| discriminate].
    destruct (attempt_body_success E p key attempt w res Hf Hok)
      as (w1 & -> & _ & _ & Hs).
    now apply Hnil.
  - destruct remaining as [| remaining].
    + assert (attempt = MAX_RETRIES) by lia. subst attempt.
      destruct (attempt_body_last E p key w Hok) as (w1 & -> & _ & Hs).
      now apply Hnil.
    + assert (Hlt : attempt < MAX_RETRIES) by lia.
      assert (H0 : server_paced (fetch_result E (List.length (calls w))) = false).
      { rewrite <- (Nat.add_0_r (List.length (calls w))). apply Hpaced. lia. }
      destruct (attempt_body_own_wait E p key attempt w Hlt Hrand Hok H0)
        as (w1 & ms & -> & Hc & Hs & Hms).
      assert (Hlen : List.length (calls w1) = S (List.length (calls w))).
      { rewrite Hc, length_app. simpl. lia. }
      destruct (IH (S attempt) w1) as (waits & Hsl & Hn & Hb); try lia.
      { intros i Hi. rewrite Hlen. replace (S (List.length (calls w)) + i)
          with (List.length (calls w) + S i) by lia. apply Hpaced. lia. }
      exists (ms :: waits). rewrite Hsl, Hs, <- app_assoc. simpl.
      split; [reflexivity |]. split; [lia |].
      intros [| i] z Hz; simpl in Hz.
      * injection Hz as <-. now rewrite Nat.add_0_r.
      * replace (attempt + S i) with (S attempt + i) by lia. now apply Hb.
Qed.

(** X9.  When no response is a 429 or a 503, [callAi] sleeps at most
    three times, the i-th sleep lies between [1000 * 2^i] and
    [1000 * 2^i + 299] milliseconds, and the sleeps add up to less than
    7900 milliseconds. *)
Theorem own_waits_are_bounded E p key :
  random_in_range E ->
  (forall i, i <= MAX_RETRIES -> server_paced (fetch_result E i) = false) ->
  exists waits,
    sleeps (snd (callAi E p key start)) = map num_of_Z waits
    /\ List.length waits <= 3
    /\ (forall i ms, nth_error waits i = Some ms ->
                     (1000 * 2 ^ Z.of_nat i <= ms < 1000 * 2 ^ Z.of_nat i + 300)%Z)
    /\ (fold_right Z.add 0 waits < 7900)%Z.
Proof.
  intros Hrand Hpaced.
  destruct (callAi_from_own_waits E p key Hrand (MAX_RETRIES + 1) 0 start)
    as (waits & Hs & Hn & Hb); [reflexivity | unfold MAX_RETRIES; lia | |].
  { intros i Hi. simpl. apply Hpaced. unfold MAX_RETRIES in *. simpl in Hi. lia. }
  exists waits. split; [exact Hs |]. unfold MAX_RETRIES in Hn. simpl in Hn.
  split; [lia |]. split; [exact Hb |].
  destruct waits as [| a [| b [| c [| d waits]]]]; simpl in Hn; try lia; simpl.
  - lia.
  - pose proof (Hb 0 a eq_refl) as Ha.
    change (backoff (0 + 0)) with 1000%Z in Ha. lia.
  - pose proof (Hb 0 a eq_refl) as Ha. pose proof (Hb 1 b eq_refl) as Hb1.
    change (backoff (0 + 0)) with 1000%Z in Ha.
    change (backoff (0 + 1)) with 2000%Z in Hb1. lia.
  - pose proof (Hb 0 a eq_refl) as Ha. pose proof (Hb 1 b eq_refl) as Hb1.
    pose proof (Hb 2 c eq_refl) as Hc.
    change (backoff (0 + 0)) with 1000%Z in Ha.
    change (backoff (0 + 1)) with 2000%Z in Hb1.
    change (backoff (0 + 2)) with 4000%Z in Hc. lia.
Qed.

Lemma own_waits_are_bounded_witness :
  random_in_range forbidden_env
  /\ (forall i, i <= MAX_RETRIES -> server_paced (fetch_result forbidden_env i) = false)
  /\ exists waits,
       sleeps (snd (callAi forbidden_env "prompt" "secret" start)) = map num_of_Z waits
       /\ (fold_right Z.add 0 waits < 7900)%Z.
Proof.
  split; [apply zero_jitter_in_range |]. split; [intros i _; reflexivity |].
  destruct (own_waits_are_bounded forbidden_env "prompt" "secret"
              (zero_jitter_in_range _) (fun i _ => eq_refl))
    as (waits & Hs & _ & _ & Hsum).
  exists waits. split; assumption.
Defined.

(** ** Reading back what JSON.stringify wrote *)

Lemma quote_chars_cons (a : ascii) (s : string) :
  no_surrogates (String a s) = true ->
  quote_chars (String a s) = escape_char a ++ quote_chars s.
Proof.
  intros H. destruct s as [| b [| c s3]]; try reflexivity.
  cbn [quote_chars no_surrogates] in *.
  apply andb_true_iff in H as [H _]. apply negb_true_iff in H. now rewrite H.
Qed.

Lemma hex4_small (u : N) :
  (u < 32)%N ->
  hex4 (hex_digit (u / 4096)) (hex_digit ((u / 256) mod 16))
       (hex_digit ((u / 16) mod 16)) (hex_digit (u mod 16))
  = Some u.
Proof.
  intros Hu. destruct u as [| p]; [reflexivity |].
  repeat (match goal with
          | x : positive |- _ => destruct x
          end; try lia; try reflexivity).
Qed.

(** A [\uXXXX] escape that is not a high surrogate stands for its code
    point, whatever follows. *)
Lemma lex_unicode (h1 h2 h3 h4 : ascii) (u : N) (t : string) :
  hex4 h1 h2 h3 h4 = Some u ->
  is_high_surrogate u = false ->
  lex_string
    (String backslash (String "u" (String h1 (String h2 (String h3 (String h4 t))))))
  = prepend (utf8 u) (lex_string t).
Proof.
  intros Hhex Hhigh.
  change (lex_string
            (String backslash
               (String "u" (String h1 (String h2 (String h3 (String h4 t)))))))
    with (match hex4 h1 h2 h3 h4 with
          | None => None
          | Some u =>
              match t with
              | String b1 (String b2 (String l1 (String l2 (String l3 (String l4 r'))))) =>
                  match hex4 l1 l2 l3 l4 with
                  | Some l =>
                      if Ascii.eqb b1 backslash && Ascii.eqb b2 "u"
                         && is_high_surrogate u && is_low_surrogate l
                      then prepend (utf8 (65536 + (u - 55296) * 1024 + (l - 56320))%N)
                                   (lex_string r')
                      else prepend (utf8 u) (lex_string t)
                  | None => prepend (utf8 u) (lex_string t)
                  end
              | _ => prepend (utf8 u) (lex_string t)
              end
          end).
  rewrite Hhex, Hhigh.
  destruct t as [| b1 [| b2 [| l1 [| l2 [| l3 [| l4 t']]]]]]; try reflexivity.
  destruct (hex4 l1 l2 l3 l4); [| reflexivity].
  now rewrite andb_false_r.
Qed.

Lemma lex_unicode_escape_small (u : N) (t : string) :
  (u < 32)%N ->
  lex_string (unicode_escape u ++ t)
  = prepend (String (ascii_of_N u) EmptyString) (lex_string t).
Proof.
  intros Hu. unfold unicode_escape. cbn [append].
  rewrite (lex_unicode _ _ _ _ u t (hex4_small u Hu)).
  - unfold utf8. now rewrite (proj2 (N.ltb_lt u 128)) by lia.
  - unfold is_high_surrogate. rewrite (proj2 (N.leb_gt 55296 u)) by lia. reflexivity.
Qed.

(** Reading back what [escape_char] wrote. *)
Lemma lex_escape_char (c : ascii) (t : string) :
  lex_string (escape_char c ++ t) = prepend (String c EmptyString) (lex_string t).
Proof.
  unfold escape_char.
  destruct (Ascii.eqb c dquote) eqn:Hq.
  { apply Ascii.eqb_eq in Hq. subst c. reflexivity. }
  destruct (Ascii.eqb c backslash) eqn:Hb.
  { apply Ascii.eqb_eq in Hb. subst c. reflexivity. }
  assert (Hc : ascii_of_N (code c) = c) by apply ascii_N_embedding.
  destruct (code c =? 8)%N eqn:H8.
  { apply N.eqb_eq in H8. rewrite H8 in Hc. subst c. reflexivity. }
  destruct (code c =? 9)%N eqn:H9.
  { apply N.eqb_eq in H9. rewrite H9 in Hc. subst c. reflexivity. }
  destruct (code c =? 10)%N eqn:H10.
  { apply N.eqb_eq in H10. rewrite H10 in Hc. subst c. reflexivity. }
  destruct (code c =? 12)%N eqn:H12.
  { apply N.eqb_eq in H12. rewrite H12 in Hc. subst c. reflexivity. }
  destruct (code c =? 13)%N eqn:H13.
  { apply N.eqb_eq in H13. rewrite H13 in Hc. subst c. reflexivity. }
  destruct (code c <? 32)%N eqn:H32.
  { apply N.ltb_lt in H32. rewrite (lex_unicode_escape_small _ t H32). now rewrite Hc. }
  cbn [append lex_string]. now rewrite Hq, Hb, H32.
Qed.

(** [JSON.parse] reads back the characters [JSON.stringify] wrote. *)
Lemma lex_quote_chars (s rest : string) :
  no_surrogates s = true ->
  lex_string (quote_chars s ++ String dquote rest) = Some (s, rest).
Proof.
  induction s as [| a s IH]; intros Hs.
  - reflexivity.
  - rewrite (quote_chars_cons a s Hs), append_assoc, lex_escape_char.
    cbn [no_surrogates] in Hs. apply andb_true_iff in Hs as [_ Hs].
    now rewrite (IH Hs).
Qed.

Lemma parse_value_quoted (budget : nat) (s rest : string) :
  no_surrogates s = true ->
  parse_value (S budget) (String dquote (quote_chars s ++ String dquote rest))
  = Parsed (JString s) rest.
Proof.
  intros Hs.
  change (parse_value (S budget) (String dquote (quote_chars s ++ String dquote rest)))
    with (match lex_string (quote_chars s ++ String dquote rest) with
          | Some (str, rest') => Parsed (JString str) rest'
          | None => Malformed
          end).
  now rewrite (lex_quote_chars s rest Hs).
Qed.

Lemma parse_submit_body (budget : nat) (s : string) :
  no_surrogates s = true ->
  parse_value (S (S (S budget))) (submit_body s)
  = Parsed (JObject [("prompt", JString s)]) EmptyString.
Proof.
  intros Hs. unfold submit_body.
  replace (QuoteJSONString s ++ "}")
    with (String dquote (quote_chars s ++ String dquote "}"))
    by (unfold QuoteJSONString; cbn [append]; now rewrite append_assoc).
  pose proof (lex_quote_chars s "}" Hs) as Hlex.
  remember (quote_chars s ++ String dquote "}") as X eqn:HX. clear HX.
  cbn. rewrite Hlex. reflexivity.
Qed.

Lemma submit_body_length (s : string) : 1 <= String.length (submit_body s).
Proof. unfold submit_body. cbn [append String.length]. lia. Qed.

(** The server reads the page's request body as the object whose only
    member is the prompt. *)
Lemma JSON_parse_submit_body (s : string) :
  no_surrogates s = true ->
  JSON_parse (submit_body s) = Some (JObject [("prompt", JString s)]).
Proof.
  intros Hs. unfold JSON_parse.
  pose proof (submit_body_length s) as Hlen.
  replace (2 * String.length (submit_body s) + 2)
    with (S (S (S (2 * String.length (submit_body s) - 1)))) by lia.
  now rewrite (parse_submit_body _ s Hs).
Qed.

Lemma parse_envelope (budget : nat) (s : string) :
  no_surrogates s = true ->
  parse_value (S (S (S (S (S (S (S (S (S (S (S (S (S budget))))))))))))) (envelope s)
  = Parsed
      (JObject
         [("candidates",
           JArray
             [JObject
                [("content",
                  JObject [("parts", JArray [JObject [("text", JString s)]])])]])])
      EmptyString.
Proof.
  intros Hs. unfold envelope.
  replace (QuoteJSONString s ++ "}]}}]}")
    with (String dquote (quote_chars s ++ String dquote "}]}}]}"))
    by (unfold QuoteJSONString; cbn [append]; now rewrite append_assoc).
  pose proof (lex_quote_chars s "}]}}]}" Hs) as Hlex.
  remember (quote_chars s ++ String dquote "}]}}]}") as X eqn:HX. clear HX.
  cbn. rewrite Hlex. reflexivity.
Qed.

Lemma envelope_length (s : string) : 12 <= String.length (envelope s).
Proof.
  unfold envelope.
  let v := eval vm_compute in (QuoteJSONString "candidates") in
  change (QuoteJSONString "candidates") with v.
  cbn [append String.length]. lia.
Qed.

Lemma JSON_parse_envelope (s : string) :
  no_surrogates s = true ->
  JSON_parse (envelope s)
  = Some
      (JObject
         [("candidates",
           JArray
             [JObject
                [("content",
                  JObject [("parts", JArray [JObject [("text", JString s)]])])]])]).
Proof.
  intros Hs. unfold JSON_parse.
  pose proof (envelope_length s) as Hlen.
  replace (2 * String.length (envelope s) + 2)
    with (13 + (2 * String.length (envelope s) - 11)) by lia.
  cbn [Nat.add]. now rewrite (parse_envelope _ s Hs).
Qed.

(** X10.  For every reply text free of surrogate code units, the
    endpoint's envelope around it, written as JSON, is unwrapped by lines
    136 to 142 to exactly that text. *)
Theorem envelope_is_unwrapped (s : string) :
  no_surrogates s = true -> reply_of (envelope s) = JString s.
Proof.
  intros Hs. unfold reply_of. rewrite (JSON_parse_envelope s Hs). reflexivity.
Qed.

Lemma envelope_is_unwrapped_witness :
  no_surrogates example_reply = true
  /\ reply_of (envelope example_reply) = JString example_reply.
Proof.
  split; [reflexivity |]. apply envelope_is_unwrapped. reflexivity.
Defined.

(** X11.  End to end: when the first call gets a 2xx response whose
    body is the envelope around a text whose brace-delimited part parses,
    the handler makes one call, never sleeps, and answers 200 with the
    parsed object. *)
Theorem enveloped_reply_is_extracted cfg E req p key res s m v :
  reaches_transport cfg req p key ->
  fetch_result E 0 = Resolved res ->
  res_ok res = true ->
  res_text res = envelope s ->
  no_surrogates s = true ->
  brace_delimited s m ->
  JSON_parse m = Some v ->
  exists w',
    POST cfg E req start = (Normal (json_reply 200 v), w')
    /\ List.length (calls w') = 1
    /\ sleeps w' = [].
Proof.
  intros Hreach Hf Hok Htext Hs Hm Hv.
  destruct (attempt_body_success E (make_fullPrompt p) key 0 start res Hf Hok)
    as (w' & Hstep & Hc & _ & Hsl).
  assert (Hrun : callAi E (make_fullPrompt p) key start = (Normal (envelope s), w')).
  { unfold callAi. change (MAX_RETRIES + 1) with (S MAX_RETRIES).
    now rewrite callAi_from_step, Hstep, Htext. }
  exists w'. split; [| split; [now rewrite Hc | exact Hsl]].
  destruct (extraction_truthy s m v Hm Hv) as [Hex Ht].
  rewrite (POST_live cfg E req p key start Hreach), Hrun.
  assert (Hreply : reply_of (envelope s) = JString s).
  { unfold reply_of. now rewrite (JSON_parse_envelope s Hs). }
  unfold interpret, call_extract, bind.
  rewrite Hreply. unfold ret at 1. now rewrite Hex, Ht.
Qed.

Lemma example_reply_in_prose_delimited :
  brace_delimited ("Here it is: " ++ example_reply)
    (lbrace ++ quote ++ "validationRules" ++ quote ++ ":[" ++ quote ++ "a" ++ quote ++ "]"
     ++ rbrace).
Proof.
  exists "Here it is: preamble ",
    (quote ++ "validationRules" ++ quote ++ ":[" ++ quote ++ "a" ++ quote ++ "]"),
    " trailing".
  repeat split.
Defined.

Lemma enveloped_reply_is_extracted_witness :
  reaches_transport live_config (prompt_request "form") "form" "secret"
  /\ no_surrogates ("Here it is: " ++ example_reply) = true
  /\ exists w',
       POST live_config enveloped_env (prompt_request "form") start
       = (Normal (json_reply 200 (JObject [("validationRules", JArray [JString "a"])])),
          w')
       /\ List.length (calls w') = 1.
Proof.
  split; [exact form_request_reaches_transport |]. split; [reflexivity |].
  destruct (enveloped_reply_is_extracted live_config enveloped_env
              (prompt_request "form") "form" "secret"
              {| res_status := 200; res_retry_after := None;
                 res_text := envelope ("Here it is: " ++ example_reply) |}
              ("Here it is: " ++ example_reply) _ _
              form_request_reaches_transport eq_refl eq_refl eq_refl eq_refl
              example_reply_in_prose_delimited eq_refl)
    as (w' & Hpost & Hc & _).
  exists w'. split; assumption.
Defined.

(** ** The page and the route *)

Lemma validation_true B input :
  fst (Page.validation B input) = true ->
  input <> EmptyString /\ exists v, JSON_parse input = Some v.
Proof.
  unfold Page.validation, Page.is_blank.
  destruct (String.eqb (skip_str_ws input) EmptyString) eqn:Hblank; [discriminate |].
  destruct (JSON_parse input) as [v |]; [| discriminate].
  intros _. split; [| now exists v]. intros ->. discriminate Hblank.
Qed.

Lemma good_prompt_is_not_400 cfg E req w body p :
  JSON_parse (req_text req) = Some body ->
  prop "prompt" (Some body) = Some (JString p) ->
  p <> EmptyString ->
  exists reply w',
    POST cfg E req w = (Normal reply, w') /\ reply_status reply <> 400%N.
Proof.
  intros Hbody Hprompt Hp. unfold POST, try_catch.
  rewrite (handle_good_prompt cfg E req w body p Hbody Hprompt Hp).
  destruct (useMock cfg); [eexists _, w; split; [reflexivity | discriminate] |].
  destruct (apiKey cfg) as [[| c key] |];
    try (eexists _, w; split; [reflexivity | discriminate]).
  unfold bind.
  destruct (callAi E (make_fullPrompt p) (String c key) w) as [[text | e] w1].
  - destruct (interpret text w1) as [[reply | e] w2] eqn:Hi.
    + exists reply, w2. split; [reflexivity |].
      destruct (interpret_reply text w1 reply w2 Hi) as [[-> _] | [-> _]]; discriminate.
    + exists (on_error e), w2. split; [reflexivity |].
      destruct (on_error_status e) as [-> | [-> | ->]]; discriminate.
  - exists (on_error e), w1. split; [reflexivity |].
    destruct (on_error_status e) as [-> | [-> | ->]]; discriminate.
Qed.

(** X12.  A request the page submits (it submits only while
    [isValidJson] holds, here as the effect computed it from the current
    input) has a body the route parses to the object whose only member
    is [prompt], equal to the input and not empty; the route never
    answers it with 400. *)
Theorem page_request_passes_prompt_check B st body :
  Page.isValidJson st = fst (Page.validation B (Page.formInput st)) ->
  no_surrogates (Page.formInput st) = true ->
  Page.submitted st = Some body ->
  JSON_parse body = Some (JObject [("prompt", JString (Page.formInput st))])
  /\ Page.formInput st <> EmptyString
  /\ forall cfg E w,
       exists reply w',
         POST cfg E {| req_text := body |} w = (Normal reply, w')
         /\ reply_status reply <> 400%N.
Proof.
  intros Hsync Hs Hsub. unfold Page.submitted in Hsub.
  destruct (Page.isValidJson st) eqn:Hvalid; [| discriminate].
  injection Hsub as <-.
  destruct (validation_true B (Page.formInput st) (eq_sym Hsync)) as [Hne _].
  pose proof (JSON_parse_submit_body (Page.formInput st) Hs) as Hparse.
  split; [exact Hparse |]. split; [exact Hne |].
  intros cfg E w.
  apply (good_prompt_is_not_400 cfg E _ w
           (JObject [("prompt", JString (Page.formInput st))]) (Page.formInput st));
    [exact Hparse | reflexivity | exact Hne].
Qed.

Lemma page_request_passes_prompt_check_witness :
  let B := fixed_browser Page.NoData in
  Page.submitted (typed B "{}") = Some (submit_body "{}")
  /\ JSON_parse (submit_body "{}") = Some (JObject [("prompt", JString "{}")])
  /\ exists reply w',
       POST live_config abort_env {| req_text := submit_body "{}" |} start
       = (Normal reply, w')
       /\ reply_status reply <> 400%N.
Proof.
  intros B.
  destruct (page_request_passes_prompt_check B (typed B "{}") (submit_body "{}")
              eq_refl eq_refl eq_refl) as (Hparse & _ & Hpost).
  split; [reflexivity |]. split; [exact Hparse |].
  exact (Hpost live_config abort_env start).
Defined.

Lemma error_reply_text cfg E req w reply w' :
  POST cfg E req w = (Normal reply, w') ->
  reply_status reply <> 200%N ->
  exists members msg,
    reply_json reply = JObject members
    /\ lookup_member "error" members = Some (JString msg)
    /\ In msg ["Missing or invalid 'prompt' in request body";
               "Server misconfiguration"; "Invalid AI response format";
               "Server error"; "AI API error"; "AI request timed out"].
Proof.
  unfold POST, try_catch. intros Hpost Hstatus.
  destruct (handle cfg E req w) as [[reply0 | e] w0] eqn:Hh;
    injection Hpost as <- <-.
  - destruct (handle_reply cfg E req w reply0 w0 Hh)
      as [-> | [-> | [-> | (text & w1 & Hi)]]].
    + eexists _, _. split; [reflexivity |]. split; [reflexivity |]. simpl. tauto.
    + now contradiction Hstatus.
    + eexists _, _. split; [reflexivity |]. split; [reflexivity |]. simpl. tauto.
    + destruct (interpret_reply text w1 reply0 w0 Hi) as [[_ Hj] | [Hs _]];
        [| contradiction].
      eexists _, _. split; [exact Hj |]. split; [reflexivity |]. simpl. tauto.
  - unfold on_error.
    destruct (includes "timed out" (err_message e));
      [eexists _, _; split; [reflexivity |]; split; [reflexivity |]; simpl; tauto |].
    destruct (includes "AI API error" (err_message e));
      eexists _, _; (split; [reflexivity |]); (split; [reflexivity |]); simpl; tauto.
Qed.

(** X13.  Whenever the route answers a request of the page with a
    status other than 200 and the page receives that body, the page ends
    with no result, not loading, and with [error] set to the error text
    of the route, one of its six. *)
Theorem page_shows_route_errors B st body cfg E w reply w' :
  Page.submitted st = Some body ->
  POST cfg E {| req_text := body |} w = (Normal reply, w') ->
  reply_status reply <> 200%N ->
  Page.server B body = Page.Data (reply_json reply) ->
  Page.result (Page.handleSubmit B st) = None
  /\ Page.loading (Page.handleSubmit B st) = false
  /\ prop "error" (Some (reply_json reply))
     = Some (JString (Page.error (Page.handleSubmit B st)))
  /\ In (Page.error (Page.handleSubmit B st))
        ["Missing or invalid 'prompt' in request body";
         "Server misconfiguration"; "Invalid AI response format";
         "Server error"; "AI API error"; "AI request timed out"].
Proof.
  intros Hsub Hpost Hstatus Hserver.
  destruct (error_reply_text cfg E _ w reply w' Hpost Hstatus)
    as (members & msg & Hj & Hl & Hin).
  unfold Page.handleSubmit. rewrite Hsub, Hserver, Hj. cbn [prop]. rewrite Hl.
  assert (Ht : truthy (Some (JString msg)) = true).
  { simpl in Hin. destruct Hin as [<- | [<- | [<- | [<- | [<- | [<- | []]]]]]];
      reflexivity. }
  rewrite Ht. cbn. auto.
Qed.

Lemma page_shows_route_errors_witness :
  let B := fixed_browser
             (Page.Data (JObject [("error", JString "AI request timed out")])) in
  Page.submitted (typed B "{}") = Some (submit_body "{}")
  /\ Page.error (Page.handleSubmit B (typed B "{}")) = "AI request timed out"
  /\ Page.result (Page.handleSubmit B (typed B "{}")) = None.
Proof.
  intros B.
  destruct (page_shows_route_errors B (typed B "{}") (submit_body "{}")
              live_config abort_env start
              (json_reply 504 (JObject [("error", JString "AI request timed out")]))
              (snd (POST live_config abort_env {| req_text := submit_body "{}" |} start))
              eq_refl eq_refl)
    as (Hres & _ & Herr & _); [discriminate | reflexivity |].
  split; [reflexivity |]. split; [| exact Hres].
  reflexivity.
Defined.

(** ** Sections *)

Lemma has_length_renders (v : value) :
  v = None \/ (exists items, v = Some (JArray items)) ->
  Page.has_length v = Page.section_renders v.
Proof.
  intros [-> | (items & ->)]; [reflexivity |].
  unfold Page.has_length, Page.section_renders, Page.length_is_zero. reflexivity.
Qed.

(** X14.  When a body arrives that is not [null], has no truthy
    [error] member, and whose four lists are arrays or absent, the page
    stores it as the result, clears the error, and opens exactly the
    sections that render: those with a non-empty list. *)
Theorem arrived_sections_are_open B st body data :
  Page.submitted st = Some body ->
  Page.server B body = Page.Data data ->
  data <> JNull ->
  truthy (prop "error" (Some data)) = false ->
  (forall key,
     In key ["validationRules"; "accessibility"; "uxSuggestions"; "edgeCases"] ->
     prop key (Some data) = None
     \/ exists items, prop key (Some data) = Some (JArray items)) ->
  let st' := Page.handleSubmit B st in
  Page.result st' = Some data
  /\ Page.error st' = EmptyString
  /\ Page.is_open (Page.openSections st') "Validation Rules"
     = Page.section_renders (prop "validationRules" (Some data))
  /\ Page.is_open (Page.openSections st') "Accessibility"
     = Page.section_renders (prop "accessibility" (Some data))
  /\ Page.is_open (Page.openSections st') "UX Suggestions"
     = Page.section_renders (prop "uxSuggestions" (Some data))
  /\ Page.is_open (Page.openSections st') "Edge Cases"
     = Page.section_renders (prop "edgeCases" (Some data)).
Proof.
  intros Hsub Hserver Hnull Herr Hfields st'.
  assert (Hst : st'
                = {| Page.formInput := Page.formInput st;
                     Page.result := Some data;
                     Page.loading := false;
                     Page.error := EmptyString;
                     Page.jsonError := Page.jsonError st;
                     Page.isValidJson := Page.isValidJson st;
                     Page.openSections := Page.sections data;
                     Page.copyStatus := [];
                     Page.formatLang := Page.formatLang st |}).
  { unfold st', Page.handleSubmit. rewrite Hsub, Hserver.
    destruct data; try contradiction;
      (destruct (prop "error" _) as [err |]; [| reflexivity]);
      now rewrite Herr. }
  rewrite Hst. cbn [Page.result Page.error Page.openSections Page.sections Page.is_open].
  rewrite <- !has_length_renders by (apply Hfields; simpl; tauto).
  repeat split.
Qed.

Lemma arrived_sections_are_open_witness :
  let data := JObject [("validationRules", JArray [JString "a"]);
                       ("accessibility", JArray [])] in
  let B := fixed_browser (Page.Data data) in
  Page.submitted (typed B "{}") = Some (submit_body "{}")
  /\ Page.is_open (Page.openSections (Page.handleSubmit B (typed B "{}")))
       "Validation Rules" = true
  /\ Page.is_open (Page.openSections (Page.handleSubmit B (typed B "{}")))
       "Accessibility" = false.
Proof.
  intros data B.
  destruct (arrived_sections_are_open B (typed B "{}") (submit_body "{}") data
              eq_refl eq_refl)
    as (_ & _ & Hv & Ha & _); [discriminate | reflexivity | |].
  - intros key [<- | [<- | [<- | [<- | []]]]];
      solve [left; reflexivity | right; eexists; reflexivity].
  - split; [reflexivity |]. split; [exact Hv | exact Ha].
Defined.

Lemma is_open_set_key_same (s : list (string * bool)) (k : string) (b : bool) :
  Page.is_open (Page.set_key k b s) k = b.
Proof.
  induction s as [| [k' b'] s IH]; simpl.
  - now rewrite String.eqb_refl.
  - destruct (String.eqb k k') eqn:Hk; simpl; now rewrite Hk.
Qed.

Lemma is_open_set_key_other (s : list (string * bool)) (k t : string) (b : bool) :
  t <> k -> Page.is_open (Page.set_key k b s) t = Page.is_open s t.
Proof.
  intros Hne. induction s as [| [k' b'] s IH]; simpl.
  - apply String.eqb_neq in Hne. now rewrite Hne.
  - destruct (String.eqb k k') eqn:Hk; simpl.
    + apply String.eqb_eq in Hk. subst k'. apply String.eqb_neq in Hne.
      now rewrite Hne.
    + now rewrite IH.
Qed.

(** X15.  Toggling a section flips whether it is open and leaves every
    other section as it is; toggling it twice restores every section. *)
Theorem toggle_flips_one_section (s : list (string * bool)) (k t : string) :
  Page.is_open (Page.toggle k s) k = negb (Page.is_open s k)
  /\ (t <> k -> Page.is_open (Page.toggle k s) t = Page.is_open s t)
  /\ Page.is_open (Page.toggle k (Page.toggle k s)) t = Page.is_open s t.
Proof.
  unfold Page.toggle. split; [apply is_open_set_key_same |].
  split; [apply is_open_set_key_other |].
  destruct (String.eqb t k) eqn:Htk.
  - apply String.eqb_eq in Htk. subst t.
    now rewrite !is_open_set_key_same, negb_involutive.
  - apply String.eqb_neq in Htk. now rewrite !is_open_set_key_other.
Qed.

Lemma toggle_flips_one_section_witness :
  "Accessibility" <> "Edge Cases"
  /\ Page.is_open (Page.toggle "Edge Cases" [("Accessibility", true)]) "Accessibility"
     = true.
Proof.
  split; [discriminate |].
  apply (proj1 (proj2 (toggle_flips_one_section [("Accessibility", true)]
                         "Edge Cases" "Accessibility"))).
  discriminate.
Defined.

(** X16.  Expand All opens exactly the sections that have an entry in
    [openSections]; after Collapse All, which empties it, Expand All
    opens nothing. *)
Theorem expandAll_opens_known_sections (s : list (string * bool)) (t : string) :
  (Page.is_open (Page.expandAll s) t = true <-> In t (map fst s))
  /\ Page.is_open (Page.expandAll (Page.collapseAll s)) t = false.
Proof.
  split; [| reflexivity].
  induction s as [| [k b] s IH]; simpl.
  - split; [discriminate | tauto].
  - destruct (String.eqb t k) eqn:Htk.
    + apply String.eqb_eq in Htk. subst k. split; auto.
    + apply String.eqb_neq in Htk. rewrite IH. split; [auto |].
      intros [H | H]; [congruence | exact H].
Qed.

Lemma expandAll_opens_known_sections_witness :
  In "Accessibility" (map fst [("Accessibility", false)])
  /\ Page.is_open (Page.expandAll [("Accessibility", false)]) "Accessibility" = true.
Proof.
  split; [now left |].
  apply (proj1 (expandAll_opens_known_sections [("Accessibility", false)]
                  "Accessibility")).
  now left.
Defined.
